(** * github_graphql_scraper: the discovery / enrichment / report pipeline

    A shallow embedding of [src/domain.ts] and [src/main.ts].

    - Records follow the interfaces of [domain.ts].  A JavaScript [number]
      that holds an id or a star count is an integer ([Z]).
    - A value obtained from the network is typed by a TypeScript annotation
      only; at run time an object reference may be [null] or [undefined], and
      reading a property through it raises a [TypeError].  Every object-valued
      position of a response is therefore an [option].  Scalars keep their
      declared type, but for the star count of an edge, which the code tests
      against [undefined] (line 160) and which may therefore be missing.
    - [async] code runs on a single thread of control, so each function is a
      computation that either completes normally or throws, and that emits
      the effects it performs (requests, console lines, timers) in order.
    - A [Map] of JavaScript iterates in insertion order, and [set] on a key
      already present keeps the key's position: it is an association list.
    - [Array.prototype.sort] sorts the array it is called on; the arrays that
      reach it live in a store addressed by references. *)

From Stdlib Require Import ZArith List String Bool Lia Permutation Sorted.
Import ListNotations.

Local Open Scope string_scope.
Local Open Scope list_scope.
Local Open Scope Z_scope.

Set Implicit Arguments.

(* ===================================================================== *)
(** * domain.ts *)
(* ===================================================================== *)

Record Repository := mkRepository {
  id : Z;
  name : string;
  full_name : string;
  stargazers_count : Z;
  html_url : string
}.

(** [item.repository] is read through a reference obtained from JSON:
    [None] is a missing or null [repository]. *)
Record CodeSearchResultItem := mkItem {
  item_name : string;
  path : string;
  repository : option Repository;
  item_html_url : string
}.

Record CodeSearchResult := mkCodeSearchResult {
  total_count : Z;
  items : option (list (option CodeSearchResultItem))
}.

(** [stargazerCount] is read without a check and stored as it is: [None] is
    a node without the field, for which the read yields [undefined]. *)
Record Node := mkNode {
  nameWithOwner : string;
  stargazerCount : option Z
}.

Record Edge := mkEdge { node : option Node }.

Record Search := mkSearch { edges : option (list (option Edge)) }.

Record Data := mkData { search : option Search }.

Record GraphQLResponse := mkGraphQLResponse { data : option Data }.

(** The object spread of line 161: [{ ...repo, stargazers_count: v }]. *)
Definition with_stargazers_count (repo : Repository) (v : Z) : Repository :=
  {| id := id repo;
     name := name repo;
     full_name := full_name repo;
     stargazers_count := v;
     html_url := html_url repo |}.

(* ===================================================================== *)
(** * JavaScript values thrown, and completions *)
(* ===================================================================== *)

(** What a [catch] clause receives: an [Error] instance with its message, or
    some other value. *)
Inductive Thrown :=
| ErrorInstance (message : string)
| OtherValue (shown : string).

Inductive Completion (A : Type) :=
| Normal (a : A)
| Throw (e : Thrown).

Arguments Normal {A} a.
Arguments Throw {A} e.

Definition TypeError (what : string) : Thrown :=
  ErrorInstance ("Cannot read properties of undefined or null: " ++ what)%string.

(* ===================================================================== *)
(** * The HTTP collaborators *)
(* ===================================================================== *)

Inductive SearchType := filename | content.

(** The [URLSearchParams] of lines 74-78. *)
Record SearchParams := mkSearchParams {
  q : string;
  per_page : Z;
  page_param : Z
}.

(** The GraphQL query of lines 118-132, by its two interpolated holes. *)
Record GraphQLQuery := mkGraphQLQuery {
  search_query : string;
  first : nat
}.

(** The error document of a non-success response; [message] may be absent. *)
Record ApiErrorBody := mkApiErrorBody { message : option string }.

(** A [Response]: [response.ok] selects how the code reads the body, and
    [response.json()] either rejects (the body is not JSON) or resolves to a
    value, which may be the JSON literal [null] ([None]). *)
Inductive Response (A : Type) :=
| NotOk (json : Completion (option ApiErrorBody))
| Ok (json : Completion (option A)).

Arguments NotOk {A} json.
Arguments Ok {A} json.

Definition ok {A} (response : Response A) : bool :=
  match response with
  | NotOk _ => false
  | Ok _ => true
  end.

(** [fetch] rejects on a transport failure and resolves to a response
    otherwise. *)
Record GitHub := mkGitHub {
  search_code : SearchParams -> Completion (Response CodeSearchResult);
  graphql : GraphQLQuery -> Completion (Response GraphQLResponse)
}.

(* ===================================================================== *)
(** * Effects *)
(* ===================================================================== *)

(** Console lines, by template and interpolated values. *)
Inductive Line :=
| FetchingPage (page : Z) (searchTerm : string)
| ApiErrorPage (page : Z) (message : option string)
| PageFound (page : Z) (results : nat)
| FoundUnique (n : nat)
| FetchingStarCounts (n : nat)
| GraphQLApiError (message : option string)
| SuccessfullyEnriched (n : nat)
| FailedToFetch (message : string)
| UnknownGraphQLError (shown : string)
| FinalResultsBanner
| RepositoriesAboveThreshold (n : nat)
| ResultLine (rank : nat) (full_name : string) (stars : Z)
| UrlLine (url : string)
| FatalError (message : string)
| UnknownError (shown : string).

Inductive Event :=
| ConsoleLog (line : Line)
| ConsoleError (line : Line)
| HttpGet (params : SearchParams)
| HttpPost (query : GraphQLQuery)
| SetTimeout (ms : Z).

(** A computation: how it completes, and the effects it performed. *)
Definition M (A : Type) : Type := Completion A * list Event.

Definition ret {A} (a : A) : M A := (Normal a, []).

Definition bind {A B} (m : M A) (k : A -> M B) : M B :=
  match m with
  | (Normal a, t) => let (r, t') := k a in (r, t ++ t')
  | (Throw e, t) => (Throw e, t)
  end.

Definition throw {A} (e : Thrown) : M A := (Throw e, []).

Definition emit (ev : Event) : M unit := (Normal tt, [ev]).

Definition await {A} (c : Completion A) : M A := (c, []).

(** [try { m } catch (error) { handler error }]. *)
Definition try_catch {A} (m : M A) (handler : Thrown -> M A) : M A :=
  match m with
  | (Normal a, t) => (Normal a, t)
  | (Throw e, t) => let (r, t') := handler e in (r, t ++ t')
  end.

(** Reading a property through a reference. *)
Definition deref {A} (what : string) (r : option A) : M A :=
  match r with
  | Some a => ret a
  | None => throw (TypeError what)
  end.

Declare Scope js_scope.
Delimit Scope js_scope with js.
Notation "x <- m ;; k" := (bind m (fun x => k))
  (at level 61, m at next level, right associativity) : js_scope.
Notation "m ;; k" := (bind m (fun _ => k))
  (at level 61, right associativity) : js_scope.
Local Open Scope js_scope.

Definition result {A} (m : M A) : Completion A := fst m.
Definition effects {A} (m : M A) : list Event := snd m.

(** [array.forEach] with a callback that updates an accumulator and may
    throw: the first throw ends the iteration. *)
Fixpoint forEach {A S} (l : list A) (f : A -> S -> M S) (s : S) : M S :=
  match l with
  | [] => ret s
  | a :: l' => s' <- f a s ;; forEach l' f s'
  end.

(* ===================================================================== *)
(** * Map *)
(* ===================================================================== *)

Section JsMap.
Variable K V : Type.
Variable eqb : K -> K -> bool.

Definition JsMap := list (K * V).

Definition Map_new : JsMap := [].

Fixpoint Map_set (k : K) (v : V) (m : JsMap) : JsMap :=
  match m with
  | [] => [(k, v)]
  | (k', v') :: m' =>
      if eqb k k' then (k, v) :: m' else (k', v') :: Map_set k v m'
  end.

Fixpoint Map_get (k : K) (m : JsMap) : option V :=
  match m with
  | [] => None
  | (k', v') :: m' => if eqb k k' then Some v' else Map_get k m'
  end.

Definition Map_keys (m : JsMap) : list K := map fst m.
Definition Map_values (m : JsMap) : list V := map snd m.
Definition Map_size (m : JsMap) : nat := List.length m.
End JsMap.

Arguments Map_new {K V}.

(* ===================================================================== *)
(** * Arrays that are sorted in place *)
(* ===================================================================== *)

(** [Array.prototype.sort (comparefn)]: ECMAScript requires the sort to be
    stable, and [comparefn x y <= 0] keeps [x] before [y].  For a consistent
    comparator the stable sorted arrangement is unique
    ([Array_sort_unique]); it is computed here by insertion from the right. *)
Section ArraySort.
Variable A : Type.
Variable comparefn : A -> A -> Z.

Fixpoint sort_insert (x : A) (l : list A) : list A :=
  match l with
  | [] => [x]
  | y :: l' =>
      if comparefn x y <=? 0 then x :: y :: l' else y :: sort_insert x l'
  end.

Definition Array_sort (l : list A) : list A := fold_right sort_insert [] l.
End ArraySort.

(** The store of arrays: a reference is an index, a reference that was never
    allocated reads as the empty array and cannot be written. *)
Definition Ref := nat.
Definition Store := list (list Repository).

Definition alloc (a : list Repository) (heap : Store) : Ref * Store :=
  (List.length heap, heap ++ [a]).

Definition read (heap : Store) (r : Ref) : list Repository := nth r heap [].

Fixpoint write (heap : Store) (r : Ref) (a : list Repository) : Store :=
  match heap, r with
  | [], _ => []
  | _ :: heap', O => a :: heap'
  | a0 :: heap', S r' => a0 :: write heap' r' a
  end.

(* ===================================================================== *)
(** * main.ts: fetchRepositories *)
(* ===================================================================== *)

Section Pipeline.
Variable github : GitHub.

Definition perPage : Z := 30.

Definition fetch_get (params : SearchParams) : M (Response CodeSearchResult) :=
  emit (HttpGet params) ;; await (search_code github params).

Definition fetch_post (query : GraphQLQuery) : M (Response GraphQLResponse) :=
  emit (HttpPost query) ;; await (graphql github query).

(** Lines 98-100: the callback of [data.items.forEach]. *)
Definition remember (item : option CodeSearchResultItem)
    (uniqueRepos : JsMap Z Repository) : M (JsMap Z Repository) :=
  it <- deref "repository" item ;;
  repo <- deref "id" (repository it) ;;
  ret (Map_set Z.eqb (id repo) repo uniqueRepos).

(** Lines 72-104.  The loop is bounded by [page <= 3]; [fuel] only makes
    the recursion structural ([fetch_pages_fuel] shows that three units are
    always enough). *)
Fixpoint fetch_pages (fuel : nat) (searchTerm : string) (type : SearchType)
    (page : Z) (uniqueRepos : JsMap Z Repository) : M (JsMap Z Repository) :=
  match fuel with
  | O => ret uniqueRepos
  | S fuel' =>
      if page <=? 3 then
        let query :=
          match type with
          | filename => ("filename:" ++ searchTerm)%string
          | content => searchTerm
          end in
        let params :=
          {| q := query; per_page := perPage; page_param := page |} in
        emit (ConsoleLog (FetchingPage page searchTerm)) ;;
        response <- fetch_get params ;;
        match response with
        | NotOk json =>
            body <- await json ;;
            error <- deref "message" body ;;
            emit (ConsoleError (ApiErrorPage page (message error))) ;;
            ret uniqueRepos
        | Ok json =>
            body <- await json ;;
            data <- deref "items" body ;;
            its <- deref "length" (items data) ;;
            emit (ConsoleLog (PageFound page (List.length its))) ;;
            uniqueRepos' <- forEach its remember uniqueRepos ;;
            emit (SetTimeout 1500) ;;
            fetch_pages fuel' searchTerm type (page + 1) uniqueRepos'
        end
      else ret uniqueRepos
  end.

Definition fetchRepositories (searchTerm : string) (type : SearchType)
    : M (list Repository) :=
  uniqueRepos <- fetch_pages 3 searchTerm type 1 Map_new ;;
  ret (Map_values uniqueRepos).

(* =================================================================== *)
(** * main.ts: enrichWithStarCount *)
(* =================================================================== *)

(** Lines 154-156: the callback of [edges.forEach]. *)
Definition record_stars (edge : option Edge)
    (starMap : JsMap string (option Z)) : M (JsMap string (option Z)) :=
  e <- deref "node" edge ;;
  n <- deref "nameWithOwner" (node e) ;;
  ret (Map_set String.eqb (nameWithOwner n) (stargazerCount n) starMap).

(** Lines 158-164: the callback of [repos.map].  [starMap.get] yields
    [undefined] for a key that is absent and for a key stored with
    [undefined]; line 160 tests the value it yields. *)
Definition enrich_one (starMap : JsMap string (option Z)) (repo : Repository)
    : Repository :=
  match Map_get String.eqb (full_name repo) starMap with
  | Some (Some stargazerCount) => with_stargazers_count repo stargazerCount
  | Some None => repo
  | None => repo
  end.

(** Line 117. *)
Definition repoQueries (repos : list Repository) : string :=
  String.concat " "
    (map (fun repo => ("repo:" ++ full_name repo)%string) repos).

(** Lines 108-176. *)
Definition enrichWithStarCount (repos : list Repository)
    : M (list Repository) :=
  if (List.length repos =? 0)%nat then ret []
  else
    emit (ConsoleLog (FetchingStarCounts (List.length repos))) ;;
    let query :=
      {| search_query := repoQueries repos; first := List.length repos |} in
    try_catch
      (response <- fetch_post query ;;
       match response with
       | NotOk json =>
           body <- await json ;;
           error <- deref "message" body ;;
           emit (ConsoleError (GraphQLApiError (message error))) ;;
           ret repos
       | Ok json =>
           body <- await json ;;
           result <- deref "data" body ;;
           d <- deref "search" (data result) ;;
           s <- deref "edges" (search d) ;;
           es <- deref "forEach" (edges s) ;;
           starMap <- forEach es record_stars Map_new ;;
           let enrichedRepos := map (enrich_one starMap) repos in
           emit (ConsoleLog (SuccessfullyEnriched (List.length es))) ;;
           ret enrichedRepos
       end)
      (fun error =>
         match error with
         | ErrorInstance msg => emit (ConsoleError (FailedToFetch msg))
         | OtherValue shown => emit (ConsoleError (UnknownGraphQLError shown))
         end ;;
         ret repos).

(* =================================================================== *)
(** * main.ts: printResults and main *)
(* =================================================================== *)

(** Line 180: the comparator handed to [sort]. *)
Definition by_stars_desc (a b : Repository) : Z :=
  stargazers_count b - stargazers_count a.

(** Lines 181-184: the callback of the final [forEach], with its index. *)
Fixpoint print_from (i : nat) (repos : list Repository) : list Event :=
  match repos with
  | [] => []
  | repo :: rest =>
      ConsoleLog (ResultLine (i + 1) (full_name repo) (stargazers_count repo))
      :: ConsoleLog (UrlLine (html_url repo))
      :: print_from (S i) rest
  end.

(** Lines 178-185.  [repos] is the caller's array: [sort] reorders it in
    the store and returns the same reference, which [forEach] then walks. *)
Definition printResults (repos : Ref) (heap : Store) : M Store :=
  let heap' := write heap repos (Array_sort by_stars_desc (read heap repos)) in
  (Normal heap', print_from 0 (read heap' repos)).

(** Line 41: the filter of [main]. *)
Definition star_threshold : Z := 100.

Definition filter_by_stars (reposWithStars : list Repository)
    : list Repository :=
  filter (fun repo => stargazers_count repo >=? star_threshold) reposWithStars.

(** Lines 35-53, for the search term and type that the flags select.  The
    array that [filter] creates is the one handed to [printResults]. *)
Definition main (searchTerm : string) (searchType : SearchType)
    (heap : Store) : M Store :=
  try_catch
    (repos <- fetchRepositories searchTerm searchType ;;
     emit (ConsoleLog (FoundUnique (List.length repos))) ;;
     reposWithStars <- enrichWithStarCount repos ;;
     let (filteredRepos, heap1) := alloc (filter_by_stars reposWithStars) heap in
     emit (ConsoleLog FinalResultsBanner) ;;
     emit (ConsoleLog (RepositoriesAboveThreshold
                         (List.length (read heap1 filteredRepos)))) ;;
     printResults filteredRepos heap1)
    (fun error =>
       match error with
       | ErrorInstance msg => emit (ConsoleError (FatalError msg))
       | OtherValue shown => emit (ConsoleError (UnknownError shown))
       end ;;
       ret heap).

End Pipeline.

(* ===================================================================== *)
(** * Vocabulary of the properties *)
(* ===================================================================== *)

(** The request that [fetchRepositories] sends for a page. *)
Definition page_request (searchTerm : string) (type : SearchType) (page : Z)
    : SearchParams :=
  {| q := match type with
          | filename => ("filename:" ++ searchTerm)%string
          | content => searchTerm
          end;
     per_page := perPage;
     page_param := page |}.

(** The repositories carried by a list of items, when every item is an
    object with a [repository]. *)
Fixpoint payloads (its : list (option CodeSearchResultItem))
    : option (list Repository) :=
  match its with
  | [] => Some []
  | Some {| repository := Some repo |} :: its' =>
      option_map (cons repo) (payloads its')
  | _ :: _ => None
  end.

(** A page that was read: success status, a JSON body, an [items] array of
    well-formed items. *)
Definition page_payloads (c : Completion (Response CodeSearchResult))
    : option (list Repository) :=
  match c with
  | Normal (Ok (Normal (Some {| items := Some its |}))) => payloads its
  | _ => None
  end.

(** A page refused with a non-success status and a readable error document. *)
Definition page_refused (c : Completion (Response CodeSearchResult))
    : option ApiErrorBody :=
  match c with
  | Normal (NotOk (Normal (Some error))) => Some error
  | _ => None
  end.

(** Inserting a sequence of payloads into the deduplication map, keyed by id,
    in order. *)
Definition insert_all (seen : list Repository) (m : JsMap Z Repository)
    : JsMap Z Repository :=
  fold_left (fun m repo => Map_set Z.eqb (id repo) repo m) seen m.

Definition dedup (seen : list Repository) : list Repository :=
  Map_values (insert_all seen Map_new).

(** The payload of the last item of [seen] that carries id [k]. *)
Definition last_seen (k : Z) (seen : list Repository) : option Repository :=
  find (fun repo => id repo =? k) (rev seen).

(** The payloads of the pages [page], [page + 1], ... that are read before the
    first page that is not, up to page 3. *)
Fixpoint processed_from (github : GitHub) (searchTerm : string)
    (type : SearchType) (n : nat) (page : Z) : list Repository :=
  match n with
  | O => []
  | S n' =>
      if page <=? 3 then
        match page_payloads
                (search_code github (page_request searchTerm type page)) with
        | Some l => l ++ processed_from github searchTerm type n' (page + 1)
        | None => []
        end
      else []
  end.

Definition processed (github : GitHub) (searchTerm : string)
    (type : SearchType) : list Repository :=
  processed_from github searchTerm type 3 1.

(** A trace cut at its page requests: the events before the first request,
    then each request with the events up to the next one. *)
Fixpoint segments (t : list Event)
    : list Event * list (SearchParams * list Event) :=
  match t with
  | [] => ([], [])
  | HttpGet params :: t' =>
      ([], (params, fst (segments t')) :: snd (segments t'))
  | ev :: t' => (ev :: fst (segments t'), snd (segments t'))
  end.

(** The last page request of a trace, with the events that follow it. *)
Definition last_request (t : list Event)
    : option (SearchParams * list Event) :=
  match rev (snd (segments t)) with
  | [] => None
  | seg :: _ => Some seg
  end.

Definition after_last_request (t : list Event) : list Event :=
  match last_request t with
  | Some (_, evs) => evs
  | None => []
  end.

Definition is_delay (ev : Event) : bool :=
  match ev with
  | SetTimeout _ => true
  | _ => false
  end.

(** The timers that follow a page request, up to the next request: one timer
    of 1500 ms when the page was read, none otherwise. *)
Definition delay_after (github : GitHub) (seg : SearchParams * list Event)
    : Prop :=
  filter is_delay (snd seg) =
  match page_payloads (search_code github (fst seg)) with
  | Some _ => [SetTimeout 1500]
  | None => []
  end.

(** An edge that carries a node. *)
Definition edge_of (n : Node) : option Edge := Some {| node := Some n |}.

(** A response of the enrichment endpoint that is read to the end: each edge
    carries a node. *)
Definition graphql_success (nodes : list Node)
    : Completion (Response GraphQLResponse) :=
  Normal (Ok (Normal (Some
    {| data := Some {| search := Some
         {| edges := Some (map edge_of nodes) |} |} |}))).

(** The lookup that lines 153-156 build from such a response. *)
Definition starMap_of (nodes : list Node) : JsMap string (option Z) :=
  fold_left
    (fun m n => Map_set String.eqb (nameWithOwner n) (stargazerCount n) m)
    nodes Map_new.

(** The three ways the enrichment request can fail. *)
Inductive parsing_error : Completion (option GraphQLResponse) -> Prop :=
| body_not_json e : parsing_error (Throw e)
| body_null : parsing_error (Normal None)
| data_missing : parsing_error (Normal (Some {| data := None |}))
| search_missing :
    parsing_error (Normal (Some {| data := Some {| search := None |} |}))
| edges_missing :
    parsing_error
      (Normal (Some {| data := Some {| search := Some {| edges := None |} |} |}))
| edge_malformed es :
    In None es \/ In (Some {| node := None |}) es ->
    parsing_error
      (Normal (Some {| data := Some {| search := Some {| edges := Some es |} |} |})).

Inductive enrichment_failure : Completion (Response GraphQLResponse) -> Prop :=
| transport_failure e : enrichment_failure (Throw e)
| non_success_status json : enrichment_failure (Normal (NotOk json))
| malformed_response json :
    parsing_error json -> enrichment_failure (Normal (Ok json)).

(** The request that [enrichWithStarCount] sends for [repos]. *)
Definition enrichment_request (repos : list Repository) : GraphQLQuery :=
  {| search_query := repoQueries repos; first := List.length repos |}.

(** A comparator that sorts by a numeric key, largest first, the order it
    yields, and the test that selects the elements of one key. *)
Definition by_key_desc {A} (key : A -> Z) (a b : A) : Z := key b - key a.

Definition key_ge_of {A} (key : A -> Z) (a b : A) : Prop := key a >= key b.

Definition has_key_of {A} (key : A -> Z) (s : Z) (a : A) : bool := key a =? s.

(** Descending order of star counts. *)
Definition stars_ge (a b : Repository) : Prop :=
  stargazers_count a >= stargazers_count b.

Definition has_stars (s : Z) (repo : Repository) : bool :=
  stargazers_count repo =? s.

(** Every entry of the map is stored under the id of its payload. *)
Definition keyed_by_id (m : JsMap Z Repository) : Prop :=
  Forall (fun kv => id (snd kv) = fst kv) m.

(* ===================================================================== *)
(** * Sample repositories and servers *)
(* ===================================================================== *)

Definition repo_a : Repository :=
  {| id := 1; name := "a"; full_name := "a/a"; stargazers_count := 5;
     html_url := "https://github.com/a/a" |}.

Definition repo_b : Repository :=
  {| id := 2; name := "b"; full_name := "b/b"; stargazers_count := 5;
     html_url := "https://github.com/b/b" |}.

(** The repository of [repo_a], as another file of it reports it. *)
Definition repo_a_again : Repository :=
  {| id := 1; name := "a"; full_name := "a/a"; stargazers_count := 7;
     html_url := "https://github.com/a/a" |}.

Definition item_of (repo : Repository) : option CodeSearchResultItem :=
  Some {| item_name := "main.ts"; path := "src/main.ts";
          repository := Some repo;
          item_html_url := "https://github.com/blob/main.ts" |}.

Definition page_of (repos : list Repository)
    : Completion (Response CodeSearchResult) :=
  Normal (Ok (Normal (Some
    {| total_count := Z.of_nat (List.length repos);
       items := Some (map item_of repos) |}))).

Definition graphql_down (_ : GraphQLQuery)
    : Completion (Response GraphQLResponse) :=
  Throw (ErrorInstance "error sending request").

(** Three pages are read; the second repeats an id of the first. *)
Definition three_pages : GitHub :=
  {| search_code := fun params =>
       if page_param params =? 1 then page_of [repo_a; repo_b]
       else if page_param params =? 2 then page_of [repo_a_again]
       else page_of [];
     graphql := graphql_down |}.

(** The second page has a success status and a body that is not JSON. *)
Definition garbled_second_page : GitHub :=
  {| search_code := fun params =>
       if page_param params =? 1 then page_of [repo_a; repo_b]
       else Normal (Ok (Throw (ErrorInstance "Unexpected token < in JSON")));
     graphql := graphql_down |}.

(** The second page is refused with an error document. *)
Definition refused_second_page : GitHub :=
  {| search_code := fun params =>
       if page_param params =? 1 then page_of [repo_a; repo_b]
       else Normal (NotOk (Normal (Some
              {| message := Some "API rate limit exceeded" |})));
     graphql := graphql_down |}.

(** The enrichment endpoint knows [a/a] only. *)
Definition knows_a : GitHub :=
  {| search_code := fun _ => page_of [];
     graphql := fun _ =>
       graphql_success
         [{| nameWithOwner := "a/a"; stargazerCount := Some 42 |}] |}.

(** The enrichment endpoint answers 200 with [{ "data": null }]. *)
Definition graphql_without_data : GitHub :=
  {| search_code := fun _ => page_of [];
     graphql := fun _ => Normal (Ok (Normal (Some {| data := None |}))) |}.

(* ===================================================================== *)
(** * main.ts: main, from the token check to the pipeline *)
(* ===================================================================== *)

(** What [parse] returns for the flags that [main] declares, each given at
    most once: [help] is a boolean, [filename] and [search] are strings or
    [undefined]. *)
Record Flags := mkFlags {
  flag_help : bool;
  flag_filename : option string;
  flag_search : option string
}.

(** A string or [undefined], as a condition: [undefined] and the empty
    string are falsy. *)
Definition truthy (v : option string) : bool :=
  match v with
  | Some s => negb (s =? "")%string
  | None => false
  end.

(** [a || b]. *)
Definition js_or (a b : option string) : option string :=
  if truthy a then a else b.

(** A string or [undefined] interpolated in a template literal. *)
Definition interpolate (v : option string) : string :=
  match v with
  | Some s => s
  | None => "undefined"
  end.

(** The lines of [printUsage] and of the token check. *)
Inductive CliLine :=
| TokenNotSet
| TokenHint
| UsageSynopsis
| UsageOptions
| UsageFilename
| UsageSearch
| UsageHelp.

Inductive ProcessEvent :=
| StdErr (line : CliLine)
| StdOut (line : CliLine)
| Pipeline (ev : Event).

(** How [main] ends: [Deno.exit] ends the process with a code, otherwise the
    promise of [main] settles. *)
Inductive Outcome :=
| Exit (code : Z)
| Settled (c : Completion Store).

(** Lines 56-62. *)
Definition printUsage : list ProcessEvent :=
  [StdOut UsageSynopsis; StdOut UsageOptions; StdOut UsageFilename;
   StdOut UsageSearch; StdOut UsageHelp].

(** Lines 16-54: [main] from its first line, for the token of the
    environment and the parsed flags; lines 35-53 are [main] above. *)
Definition main_process (github : GitHub) (TOKEN : option string)
    (flags : Flags) (heap : Store) : Outcome * list ProcessEvent :=
  if negb (truthy TOKEN) then
    (Exit 1, [StdErr TokenNotSet; StdErr TokenHint])
  else if flag_help flags
          || (negb (truthy (flag_filename flags))
              && negb (truthy (flag_search flags))) then
    (Settled (Normal heap), printUsage)
  else
    let searchTerm := js_or (flag_filename flags) (flag_search flags) in
    let searchType :=
      if truthy (flag_filename flags) then filename else content in
    let (c, t) := main github (interpolate searchTerm) searchType heap in
    (Settled c, map Pipeline t).

(* ===================================================================== *)
(** * Reading a trace *)
(* ===================================================================== *)

Definition page_requests (t : list Event) : list SearchParams :=
  flat_map (fun ev => match ev with HttpGet params => [params] | _ => [] end) t.

Definition graphql_requests (t : list Event) : list GraphQLQuery :=
  flat_map (fun ev => match ev with HttpPost query => [query] | _ => [] end) t.

Definition console_errors (t : list Event) : list Line :=
  flat_map (fun ev => match ev with ConsoleError line => [line] | _ => [] end) t.

(** The ranks that the report lines of a trace carry. *)
Definition printed_ranks (t : list Event) : list nat :=
  flat_map
    (fun ev =>
       match ev with
       | ConsoleLog (ResultLine rank _ _) => [rank]
       | _ => []
       end) t.

Definition pipeline_events (t : list ProcessEvent) : list Event :=
  flat_map (fun ev => match ev with Pipeline e => [e] | _ => [] end) t.

(** The ids of a sequence in the order of their first occurrence. *)
Definition first_seen_ids (seen : list Repository) : list Z :=
  rev (nodup Z.eq_dec (rev (map id seen))).

(** The node of the last edge that carries a name. *)
Definition last_node (k : string) (nodes : list Node) : option Node :=
  find (fun n => (nameWithOwner n =? k)%string) (rev nodes).

(** The enrichment endpoint lists [a/a] twice. *)
Definition knows_a_twice : GitHub :=
  {| search_code := fun _ => page_of [];
     graphql := fun _ =>
       graphql_success
         [{| nameWithOwner := "a/a"; stargazerCount := Some 42 |};
          {| nameWithOwner := "a/a"; stargazerCount := Some 43 |}] |}.


(** Two popular repositories and one below the threshold, on one page; the
    enrichment endpoint is down. *)
Definition repo_c : Repository :=
  {| id := 3; name := "c"; full_name := "c/c"; stargazers_count := 150;
     html_url := "https://github.com/c/c" |}.

Definition repo_d : Repository :=
  {| id := 4; name := "d"; full_name := "d/d"; stargazers_count := 300;
     html_url := "https://github.com/d/d" |}.

Definition one_page_then_refused : GitHub :=
  {| search_code := fun params =>
       if page_param params =? 1 then page_of [repo_c; repo_a; repo_d]
       else Normal (NotOk (Normal (Some {| message := Some "Not Found" |})));
     graphql := graphql_down |}.

(* ===================================================================== *)
(** * Map, as JavaScript specifies it *)
(* ===================================================================== *)

Section JsMapFacts.
Variable K V : Type.
Variable eqb : K -> K -> bool.
Hypothesis eqb_eq : forall a b, eqb a b = true <-> a = b.

Lemma key_eqb_refl k : eqb k k = true.
Proof. now apply eqb_eq. Qed.

Lemma key_eqb_neq a b : a <> b -> eqb a b = false.
Proof.
  intros H. destruct (eqb a b) eqn:E; [|reflexivity].
  apply eqb_eq in E. contradiction.
Qed.

Lemma Map_get_set_same k v (m : JsMap K V) :
  Map_get eqb k (Map_set eqb k v m) = Some v.
Proof.
  induction m as [|[k' v'] m IH]; simpl.
  - now rewrite key_eqb_refl.
  - destruct (eqb k k') eqn:E; simpl.
    + now rewrite key_eqb_refl.
    + now rewrite E.
Qed.

Lemma Map_get_set_other k k' v (m : JsMap K V) :
  k <> k' -> Map_get eqb k' (Map_set eqb k v m) = Map_get eqb k' m.
Proof.
  intros Hne. induction m as [|[k0 v0] m IH]; simpl.
  - rewrite key_eqb_neq; auto.
  - destruct (eqb k k0) eqn:E; simpl.
    + apply eqb_eq in E. subst k0.
      rewrite key_eqb_neq; auto.
    + now rewrite IH.
Qed.

Lemma Map_keys_set_in k k' v (m : JsMap K V) :
  In k' (Map_keys (Map_set eqb k v m)) <-> k' = k \/ In k' (Map_keys m).
Proof.
  unfold Map_keys. induction m as [|[k0 v0] m IH]; simpl.
  - intuition.
  - destruct (eqb k k0) eqn:E; simpl.
    + apply eqb_eq in E. subst k0. intuition.
    + rewrite IH. intuition.
Qed.

Lemma Map_keys_set_NoDup k v (m : JsMap K V) :
  NoDup (Map_keys m) -> NoDup (Map_keys (Map_set eqb k v m)).
Proof.
  unfold Map_keys. induction m as [|[k0 v0] m IH]; simpl; intros Hnd.
  - constructor; [intros []|constructor].
  - inversion Hnd as [|? ? Hnotin Hnd']; subst.
    destruct (eqb k k0) eqn:E; simpl.
    + apply eqb_eq in E. subst k0. now constructor.
    + constructor; [|now apply IH].
      intros Hin. apply (Map_keys_set_in k k0 v m) in Hin.
      destruct Hin as [->|Hin]; [|contradiction].
      rewrite key_eqb_refl in E. discriminate.
Qed.

End JsMapFacts.

(* ===================================================================== *)
(** * The deduplication map of fetchRepositories *)
(* ===================================================================== *)

Lemma Z_eqb_eq : forall a b, (a =? b) = true <-> a = b.
Proof. exact Z.eqb_eq. Qed.

Lemma keyed_by_id_set repo m :
  keyed_by_id m -> keyed_by_id (Map_set Z.eqb (id repo) repo m).
Proof.
  unfold keyed_by_id. induction m as [|[k v] m IH]; simpl; intros H.
  - constructor; [reflexivity|constructor].
  - inversion H; subst. destruct (id repo =? k); constructor; auto.
Qed.

Lemma keyed_by_id_insert_all seen m :
  keyed_by_id m -> keyed_by_id (insert_all seen m).
Proof.
  revert m. induction seen as [|repo seen IH]; intros m H; simpl; auto.
  apply IH, keyed_by_id_set, H.
Qed.

Lemma insert_all_app l1 l2 m :
  insert_all (l1 ++ l2) m = insert_all l2 (insert_all l1 m).
Proof. unfold insert_all. apply fold_left_app. Qed.

Lemma insert_all_keys_NoDup seen m :
  NoDup (Map_keys m) -> NoDup (Map_keys (insert_all seen m)).
Proof.
  revert m. induction seen as [|repo seen IH]; intros m H; simpl; auto.
  apply IH, Map_keys_set_NoDup; [exact Z_eqb_eq|exact H].
Qed.

Lemma insert_all_keys_in k seen m :
  In k (Map_keys (insert_all seen m)) <->
  In k (map id seen) \/ In k (Map_keys m).
Proof.
  revert m. induction seen as [|repo seen IH]; intros m; simpl.
  - intuition.
  - rewrite IH, (@Map_keys_set_in _ _ _ Z_eqb_eq). intuition.
Qed.

Lemma find_app A (f : A -> bool) (l1 l2 : list A) :
  find f (l1 ++ l2) =
  match find f l1 with
  | Some a => Some a
  | None => find f l2
  end.
Proof.
  induction l1 as [|a l1 IH]; simpl; [reflexivity|].
  destruct (f a); auto.
Qed.

Lemma insert_all_get k seen m :
  Map_get Z.eqb k (insert_all seen m) =
  match last_seen k seen with
  | Some repo => Some repo
  | None => Map_get Z.eqb k m
  end.
Proof.
  unfold last_seen. revert m.
  induction seen as [|repo seen IH]; intros m; simpl; [reflexivity|].
  rewrite IH, find_app. simpl.
  destruct (find (fun r => id r =? k) (rev seen)); [reflexivity|].
  destruct (id repo =? k) eqn:E.
  - apply Z.eqb_eq in E. subst k.
    apply Map_get_set_same. exact Z_eqb_eq.
  - apply Map_get_set_other; [exact Z_eqb_eq|].
    intros Hk. rewrite Hk, Z.eqb_refl in E. discriminate.
Qed.

Lemma Map_get_values k m :
  keyed_by_id m ->
  find (fun repo => id repo =? k) (Map_values m) = Map_get Z.eqb k m.
Proof.
  unfold keyed_by_id, Map_values.
  induction m as [|[k0 v0] m IH]; simpl; intros H; [reflexivity|].
  inversion H as [|? ? Hk Hm]; subst. simpl in Hk. rewrite Hk.
  rewrite (Z.eqb_sym k0 k). destruct (k =? k0); auto.
Qed.

(** The size of the map is the number of distinct ids inserted. *)
Lemma insert_all_size seen :
  Map_size (insert_all seen Map_new) =
  List.length (nodup Z.eq_dec (map id seen)).
Proof.
  unfold Map_size.
  rewrite <- (length_map fst (insert_all seen Map_new)).
  fold (Map_keys (insert_all seen Map_new)).
  apply Permutation_length, NoDup_Permutation.
  - apply insert_all_keys_NoDup. constructor.
  - apply NoDup_nodup.
  - intros k. rewrite insert_all_keys_in, nodup_In. simpl. intuition.
Qed.

(* ===================================================================== *)
(** * One page of the discovery loop *)
(* ===================================================================== *)

Lemma payloads_length its l :
  payloads its = Some l -> List.length its = List.length l.
Proof.
  revert l. induction its as [|[[? ? [repo|] ?]|] its IH]; intros l H;
    simpl in H; try discriminate.
  - now inversion H.
  - destruct (payloads its) as [l'|]; simpl in H; [|discriminate].
    inversion H; subst. simpl. f_equal. now apply IH.
Qed.

Lemma forEach_remember_payloads its l m :
  payloads its = Some l ->
  forEach its remember m = (Normal (insert_all l m), []).
Proof.
  revert l m. induction its as [|[[? ? [repo|] ?]|] its IH]; intros l m H;
    simpl in H; try discriminate.
  - inversion H. reflexivity.
  - destruct (payloads its) as [l'|]; simpl in H; [|discriminate].
    inversion H; subst. simpl. rewrite (IH l'); reflexivity.
Qed.

Lemma forEach_remember_fails its m :
  payloads its = None ->
  exists e, forEach its remember m = (Throw e, []).
Proof.
  revert m. induction its as [|[[? ? [repo|] ?]|] its IH]; intros m H;
    simpl in H; try discriminate.
  - destruct (payloads its) as [l'|]; simpl in H; [discriminate|].
    destruct (IH (Map_set Z.eqb (id repo) repo m) eq_refl) as [e He].
    exists e. simpl. rewrite He. reflexivity.
  - eexists. reflexivity.
  - eexists. reflexivity.
Qed.

Section Discovery.
Variable github : GitHub.
Variable searchTerm : string.
Variable type : SearchType.

Local Abbreviation request := (page_request searchTerm type).
Local Abbreviation loop fuel := (fetch_pages github fuel searchTerm type).

Lemma fetch_pages_done fuel page m :
  3 < page -> loop fuel page m = (Normal m, []).
Proof.
  intros H. destruct fuel; simpl; [reflexivity|].
  destruct (page <=? 3) eqn:E; [|reflexivity].
  apply Z.leb_le in E. lia.
Qed.

(** A page that is read: its payloads are inserted, the timer runs, and the
    loop goes on with the next page. *)
Lemma fetch_pages_read fuel page m l :
  page <= 3 ->
  page_payloads (search_code github (request page)) = Some l ->
  loop (S fuel) page m =
  (result (loop fuel (page + 1) (insert_all l m)),
   [ConsoleLog (FetchingPage page searchTerm);
    HttpGet (request page);
    ConsoleLog (PageFound page (List.length l));
    SetTimeout 1500]
   ++ effects (loop fuel (page + 1) (insert_all l m))).
Proof.
  intros Hp H. unfold page_request in *. simpl.
  apply Z.leb_le in Hp. rewrite Hp.
  unfold fetch_get. simpl.
  destruct (search_code github _) as [[j|[[[? [its|]]|]|?]]|?];
    simpl in H; try discriminate.
  simpl. rewrite (forEach_remember_payloads _ m H). simpl.
  rewrite (payloads_length _ H).
  unfold result, effects. destruct (fetch_pages _ _ _ _ _ _). reflexivity.
Qed.

(** A page refused with a readable error document: the loop ends. *)
Lemma fetch_pages_refused fuel page m error :
  page <= 3 ->
  page_refused (search_code github (request page)) = Some error ->
  loop (S fuel) page m =
  (Normal m,
   [ConsoleLog (FetchingPage page searchTerm);
    HttpGet (request page);
    ConsoleError (ApiErrorPage page (message error))]).
Proof.
  intros Hp H. unfold page_request in *. simpl.
  apply Z.leb_le in Hp. rewrite Hp.
  unfold fetch_get. simpl.
  destruct (search_code github _) as [[[[[?]|]|?]|j]|?];
    simpl in H; try discriminate.
  inversion H; subst. reflexivity.
Qed.

(** Any other answer makes the loop throw, before the timer. *)
Lemma fetch_pages_throws fuel page m :
  page <= 3 ->
  page_payloads (search_code github (request page)) = None ->
  page_refused (search_code github (request page)) = None ->
  exists e t,
    loop (S fuel) page m =
    (Throw e,
     ConsoleLog (FetchingPage page searchTerm) :: HttpGet (request page) :: t)
    /\ (t = [] \/ exists n, t = [ConsoleLog (PageFound page n)]).
Proof.
  intros Hp H1 H2. unfold page_request in *. simpl.
  apply Z.leb_le in Hp. rewrite Hp.
  unfold fetch_get. simpl.
  destruct (search_code github _) as [[[[[?]|]|?]|[[[? [its|]]|]|?]]|?];
    simpl in H1, H2; try discriminate; simpl;
    try (do 2 eexists; split; [reflexivity|left; reflexivity]).
  destruct (forEach_remember_fails its m H1) as [e He].
  rewrite He. simpl.
  do 2 eexists; split; [reflexivity|right; eexists; reflexivity].
Qed.

(** Three units of fuel are what the bound [page <= 3] needs: more fuel
    does not change a run. *)
Lemma fetch_pages_fuel fuel page m :
  (Z.to_nat (4 - page) <= fuel)%nat ->
  loop fuel page m = loop (Z.to_nat (4 - page)) page m.
Proof.
  revert page m. induction fuel as [|fuel IH]; intros page m Hf.
  - replace (Z.to_nat (4 - page)) with O by lia. reflexivity.
  - destruct (Z_le_gt_dec page 3) as [Hp|Hp].
    + replace (Z.to_nat (4 - page)) with (S (Z.to_nat (4 - (page + 1))))
        in * by lia.
      destruct (page_payloads (search_code github (request page)))
        as [l|] eqn:E1.
      * rewrite !(fetch_pages_read _ _ Hp E1), IH by lia. reflexivity.
      * destruct (page_refused (search_code github (request page)))
          as [error|] eqn:E2.
        -- now rewrite !(fetch_pages_refused _ _ Hp E2).
        -- unfold page_request in *. simpl.
           apply Z.leb_le in Hp. rewrite Hp.
           unfold fetch_get. simpl.
           destruct (search_code github _)
             as [[[[[?]|]|?]|[[[? [its|]]|]|?]]|?];
             simpl in E1, E2; try discriminate; simpl; try reflexivity.
           destruct (forEach_remember_fails its m E1) as [e He].
           rewrite He. reflexivity.
    + rewrite !fetch_pages_done by lia. reflexivity.
Qed.

(** From page 1, any fuel of at least three gives the run of
    [fetchRepositories]. *)
Lemma fetch_pages_enough_fuel fuel m :
  (3 <= fuel)%nat -> loop fuel 1 m = loop 3 1 m.
Proof. intros H. now apply fetch_pages_fuel. Qed.
End Discovery.

(* ===================================================================== *)
(** * fetchRepositories: what a run returns *)
(* ===================================================================== *)

Section DiscoveryRuns.
Variable github : GitHub.
Variable searchTerm : string.
Variable type : SearchType.

Local Abbreviation request := (page_request searchTerm type).
Local Abbreviation loop fuel := (fetch_pages github fuel searchTerm type).

Lemma fetchRepositories_result :
  result (fetchRepositories github searchTerm type) =
  match result (loop 3 1 Map_new) with
  | Normal uniqueRepos => Normal (Map_values uniqueRepos)
  | Throw e => Throw e
  end.
Proof.
  unfold fetchRepositories, result, bind, ret.
  destruct (fetch_pages github 3 searchTerm type 1 Map_new) as [[m|e] t];
    reflexivity.
Qed.

Lemma fetchRepositories_effects :
  effects (fetchRepositories github searchTerm type) =
  effects (loop 3 1 Map_new).
Proof.
  unfold fetchRepositories, effects, bind, ret.
  destruct (fetch_pages github 3 searchTerm type 1 Map_new) as [[m|e] t];
    simpl; [apply app_nil_r|reflexivity].
Qed.

(** When the loop ends normally, the map holds the payloads of the pages
    that were read, inserted in order. *)
Lemma fetch_pages_returns fuel page m m' :
  result (loop fuel page m) = Normal m' ->
  m' = insert_all (processed_from github searchTerm type fuel page) m.
Proof.
  revert page m. induction fuel as [|fuel IH]; intros page m H.
  - inversion H. reflexivity.
  - destruct (Z_le_gt_dec page 3) as [Hp|Hp].
    + simpl processed_from.
      pose proof Hp as Hp'. apply Z.leb_le in Hp'. rewrite Hp'.
      fold (request page).
      destruct (page_payloads (search_code github (request page)))
        as [l|] eqn:E1.
      * rewrite (fetch_pages_read github searchTerm type fuel m Hp E1) in H.
        simpl in H. apply IH in H. now rewrite insert_all_app.
      * destruct (page_refused (search_code github (request page)))
          as [error|] eqn:E2.
        -- rewrite (fetch_pages_refused github searchTerm type fuel m Hp E2)
             in H.
           inversion H. reflexivity.
        -- destruct (fetch_pages_throws github searchTerm type fuel m Hp E1 E2)
             as (e & t & Heq & _).
           rewrite Heq in H. discriminate.
    + rewrite fetch_pages_done in H by lia. inversion H; subst.
      simpl. destruct (page <=? 3) eqn:E; [|reflexivity].
      apply Z.leb_le in E. lia.
Qed.

(** Pages that are read one after the other are consumed by the loop. *)
Lemma fetch_pages_prefix (pages : list (list Repository)) fuel page m :
  (List.length pages <= fuel)%nat ->
  page + Z.of_nat (List.length pages) <= 4 ->
  (forall i l, nth_error pages i = Some l ->
     page_payloads (search_code github (request (page + Z.of_nat i))) = Some l) ->
  result (loop fuel page m) =
  result (loop (fuel - List.length pages)%nat
               (page + Z.of_nat (List.length pages))
               (insert_all (List.concat pages) m)).
Proof.
  revert fuel page m.
  induction pages as [|l pages IH]; intros fuel page m Hf Hp Hread.
  - simpl. now rewrite Nat.sub_0_r, Z.add_0_r.
  - simpl List.length in *. destruct fuel as [|fuel]; [lia|].
    assert (E1 : page_payloads (search_code github (request page)) = Some l).
    { specialize (Hread O l eq_refl). now rewrite Z.add_0_r in Hread. }
    assert (Hp3 : page <= 3) by lia.
    rewrite (fetch_pages_read github searchTerm type fuel m Hp3 E1).
    simpl result.
    rewrite IH; try lia.
    + simpl. rewrite insert_all_app. f_equal. f_equal. lia.
    + intros i l' Hi. specialize (Hread (S i) l' Hi).
      replace (page + 1 + Z.of_nat i) with (page + Z.of_nat (S i)) by lia.
      exact Hread.
Qed.
End DiscoveryRuns.

Lemma keyed_by_id_ids m :
  keyed_by_id m -> map id (Map_values m) = Map_keys m.
Proof.
  unfold keyed_by_id, Map_values, Map_keys.
  induction 1 as [|[k v] m Hk _ IH]; simpl; [reflexivity|].
  simpl in Hk. now rewrite Hk, IH.
Qed.

Lemma dedup_keeps_ids seen repo :
  In repo seen -> exists kept, In kept (dedup seen) /\ id kept = id repo.
Proof.
  intros Hin. unfold dedup.
  assert (Hk : In (id repo) (map id (Map_values (insert_all seen Map_new)))).
  { rewrite keyed_by_id_ids by (apply keyed_by_id_insert_all; constructor).
    apply insert_all_keys_in. left. now apply in_map. }
  apply in_map_iff in Hk. destruct Hk as (kept & Hid & Hkept). eauto.
Qed.

(** C5. In every run of [fetchRepositories] that returns, the records
    returned are the values of the deduplication map: there are as many as
    there are distinct repository ids among the items processed, no id occurs
    twice, and the record held for an id is the payload of the last item
    processed that carries this id. *)
Theorem fetchRepositories_dedup github searchTerm type out :
  result (fetchRepositories github searchTerm type) = Normal out ->
  List.length out =
    List.length (nodup Z.eq_dec (map id (processed github searchTerm type)))
  /\ NoDup (map id out)
  /\ forall k,
       find (fun repo => id repo =? k) out =
       last_seen k (processed github searchTerm type).
Proof.
  intros H. rewrite fetchRepositories_result in H.
  destruct (result (fetch_pages github 3 searchTerm type 1 Map_new))
    as [m|e] eqn:E; [|discriminate].
  inversion H; subst out; clear H.
  apply fetch_pages_returns in E. fold (processed github searchTerm type) in E.
  subst m.
  assert (Hk : keyed_by_id (insert_all (processed github searchTerm type) Map_new))
    by (apply keyed_by_id_insert_all; constructor).
  split; [|split].
  - unfold Map_values. rewrite length_map. apply insert_all_size.
  - rewrite keyed_by_id_ids by exact Hk.
    apply insert_all_keys_NoDup. constructor.
  - intros k. rewrite Map_get_values by exact Hk.
    rewrite insert_all_get. simpl.
    now destruct (last_seen k (processed github searchTerm type)).
Qed.

Lemma fetchRepositories_dedup_witness :
  List.length [repo_a_again; repo_b] =
    List.length (nodup Z.eq_dec (map id (processed three_pages "Dockerfile" filename)))
  /\ NoDup (map id [repo_a_again; repo_b])
  /\ forall k,
       find (fun repo => id repo =? k) [repo_a_again; repo_b] =
       last_seen k (processed three_pages "Dockerfile" filename).
Proof.
  apply (@fetchRepositories_dedup three_pages "Dockerfile" filename).
  reflexivity.
Defined.

(** C2, as the code has it. A page answered with a non-success status and a
    readable error document ends pagination: [fetchRepositories] returns the
    deduplicated records of the pages read before it, every id collected
    there is kept, and nothing is thrown.  A rejected request, or a success
    status with a body that cannot be read (not JSON, [null], without
    [items], or with an item that has no [repository]), is not handled inside
    [fetchRepositories]: the error is thrown to the caller, where [main]
    catches it. *)
Theorem fetchRepositories_refused_page github searchTerm type
    (pages : list (list Repository)) :
  (List.length pages < 3)%nat ->
  (forall i l, nth_error pages i = Some l ->
     page_payloads
       (search_code github (page_request searchTerm type (1 + Z.of_nat i)))
     = Some l) ->
  let failing :=
    search_code github
      (page_request searchTerm type (1 + Z.of_nat (List.length pages))) in
  (forall error, page_refused failing = Some error ->
     result (fetchRepositories github searchTerm type)
       = Normal (dedup (List.concat pages))
     /\ forall repo, In repo (List.concat pages) ->
          exists kept, In kept (dedup (List.concat pages))
                       /\ id kept = id repo)
  /\ (page_payloads failing = None ->
      (forall json, failing <> Normal (NotOk json)) ->
      exists e, result (fetchRepositories github searchTerm type) = Throw e).
Proof.
  intros Hlen Hread failing.
  assert (Hrun :
    result (fetch_pages github 3 searchTerm type 1 Map_new) =
    result (fetch_pages github (3 - List.length pages) searchTerm type
              (1 + Z.of_nat (List.length pages))
              (insert_all (List.concat pages) Map_new))).
  { apply fetch_pages_prefix; [lia|lia|exact Hread]. }
  destruct (3 - List.length pages)%nat as [|fuel] eqn:Ef; [lia|].
  assert (Hp : 1 + Z.of_nat (List.length pages) <= 3) by lia.
  split.
  - intros error Herr. split; [|intros repo; apply dedup_keeps_ids].
    rewrite fetchRepositories_result, Hrun.
    rewrite (fetch_pages_refused github searchTerm type fuel _ Hp Herr).
    reflexivity.
  - intros H1 Hok.
    assert (H2 : page_refused failing = None).
    { destruct failing as [[json|json]|e]; try reflexivity.
      exfalso. now apply (Hok json). }
    destruct (fetch_pages_throws github searchTerm type fuel
                (insert_all (List.concat pages) Map_new) Hp H1 H2)
      as (e & t & Heq & _).
    exists e. rewrite fetchRepositories_result, Hrun, Heq. reflexivity.
Qed.

Lemma fetchRepositories_refused_page_witness :
  result (fetchRepositories refused_second_page "Dockerfile" filename)
    = Normal (dedup (List.concat [[repo_a; repo_b]]))
  /\ forall repo, In repo (List.concat [[repo_a; repo_b]]) ->
       exists kept, In kept (dedup (List.concat [[repo_a; repo_b]]))
                    /\ id kept = id repo.
Proof.
  refine (proj1 (@fetchRepositories_refused_page refused_second_page
                   "Dockerfile" filename [[repo_a; repo_b]] _ _)
                {| message := Some "API rate limit exceeded" |} _).
  - simpl. lia.
  - intros [|[|i]] l H; simpl in H; try discriminate.
    inversion H. reflexivity.
  - reflexivity.
Defined.

(** X4. A run in which the three pages are read returns the deduplicated
    records of the three pages, taken in order. *)
Lemma fetchRepositories_three_pages_read github searchTerm type l1 l2 l3 :
  page_payloads (search_code github (page_request searchTerm type 1)) = Some l1 ->
  page_payloads (search_code github (page_request searchTerm type 2)) = Some l2 ->
  page_payloads (search_code github (page_request searchTerm type 3)) = Some l3 ->
  result (fetchRepositories github searchTerm type)
  = Normal (dedup (l1 ++ l2 ++ l3)).
Proof.
  intros H1 H2 H3.
  rewrite fetchRepositories_result.
  rewrite (@fetch_pages_prefix github searchTerm type [l1; l2; l3] 3 1 Map_new).
  - simpl. now rewrite app_nil_r.
  - simpl. lia.
  - simpl. lia.
  - intros [|[|[|i]]] l H; simpl in H; inversion H; subst; simpl;
      try assumption.
    destruct i; discriminate.
Qed.

(** C2 as stated fails: a second page with a success status and a body that
    is not JSON makes [fetchRepositories] throw, and the two records of the
    first page are not returned. *)
Lemma fetchRepositories_garbled_page_throws :
  processed garbled_second_page "Dockerfile" filename = [repo_a; repo_b]
  /\ result (fetchRepositories garbled_second_page "Dockerfile" filename)
     = Throw (ErrorInstance "Unexpected token < in JSON")
  /\ ~ (exists out,
          result (fetchRepositories garbled_second_page "Dockerfile" filename)
          = Normal out).
Proof.
  split; [reflexivity|]. split; [reflexivity|].
  intros [out H]. discriminate H.
Qed.

(* ===================================================================== *)
(** * fetchRepositories: the timer between pages *)
(* ===================================================================== *)

Section DiscoveryTrace.
Variable github : GitHub.
Variable searchTerm : string.
Variable type : SearchType.

Local Abbreviation request := (page_request searchTerm type).
Local Abbreviation loop fuel := (fetch_pages github fuel searchTerm type).

(** What a run of the loop emits before its first request holds no timer. *)
Lemma fetch_pages_no_leading_delay fuel page m :
  filter is_delay (fst (segments (effects (loop fuel page m)))) = [].
Proof.
  destruct fuel as [|fuel]; [reflexivity|].
  destruct (Z_le_gt_dec page 3) as [Hp|Hp].
  - destruct (page_payloads (search_code github (request page)))
      as [l|] eqn:E1.
    + rewrite (fetch_pages_read github searchTerm type fuel m Hp E1).
      reflexivity.
    + destruct (page_refused (search_code github (request page)))
        as [error|] eqn:E2.
      * rewrite (fetch_pages_refused github searchTerm type fuel m Hp E2).
        reflexivity.
      * destruct (fetch_pages_throws github searchTerm type fuel m Hp E1 E2)
          as (e & t & Heq & _).
        rewrite Heq. reflexivity.
  - rewrite fetch_pages_done by lia. reflexivity.
Qed.

Lemma fetch_pages_delays fuel page m :
  Forall (delay_after github) (snd (segments (effects (loop fuel page m)))).
Proof.
  revert page m.
  induction fuel as [|fuel IH]; intros page m; [constructor|].
  destruct (Z_le_gt_dec page 3) as [Hp|Hp].
  - destruct (page_payloads (search_code github (request page)))
      as [l|] eqn:E1.
    + rewrite (fetch_pages_read github searchTerm type fuel m Hp E1).
      simpl. constructor; [|apply IH].
      unfold delay_after. simpl. fold (request page). rewrite E1.
      f_equal. apply fetch_pages_no_leading_delay.
    + destruct (page_refused (search_code github (request page)))
        as [error|] eqn:E2.
      * rewrite (fetch_pages_refused github searchTerm type fuel m Hp E2).
        simpl. constructor; [|constructor].
        unfold delay_after. simpl. fold (request page). now rewrite E1.
      * destruct (fetch_pages_throws github searchTerm type fuel m Hp E1 E2)
          as (e & t & Heq & Ht).
        rewrite Heq. simpl.
        destruct Ht as [->|[n ->]]; simpl; (constructor; [|constructor]);
          unfold delay_after; simpl; fold (request page); now rewrite E1.
  - rewrite fetch_pages_done by lia. constructor.
Qed.

(** Every request but the last is followed by the timer. *)
Lemma fetch_pages_delay_between fuel page m :
  Forall (fun seg => filter is_delay (snd seg) = [SetTimeout 1500])
         (removelast (snd (segments (effects (loop fuel page m))))).
Proof.
  revert page m.
  induction fuel as [|fuel IH]; intros page m; [constructor|].
  destruct (Z_le_gt_dec page 3) as [Hp|Hp].
  - destruct (page_payloads (search_code github (request page)))
      as [l|] eqn:E1.
    + rewrite (fetch_pages_read github searchTerm type fuel m Hp E1).
      cbn [effects snd app segments fst].
      specialize (IH (page + 1) (insert_all l m)).
      pose proof (fetch_pages_no_leading_delay fuel (page + 1)
                    (insert_all l m)) as Hlead.
      unfold effects in *.
      destruct (snd (segments (snd (loop fuel (page + 1) (insert_all l m)))))
        as [|seg segs]; [constructor|].
      change (removelast (?a :: seg :: segs))
        with (a :: removelast (seg :: segs)).
      constructor; [|exact IH].
      simpl. f_equal. exact Hlead.
    + destruct (page_refused (search_code github (request page)))
        as [error|] eqn:E2.
      * rewrite (fetch_pages_refused github searchTerm type fuel m Hp E2).
        constructor.
      * destruct (fetch_pages_throws github searchTerm type fuel m Hp E1 E2)
          as (e & t & Heq & Ht).
        rewrite Heq. destruct Ht as [->|[n ->]]; constructor.
  - rewrite fetch_pages_done by lia. constructor.
Qed.
End DiscoveryTrace.

(** C6, as the code has it. In every run of [fetchRepositories], one timer of
    1500 ms follows each page that is read (success status, body with
    well-formed items), the last page included, and no timer follows a page
    request that is refused or whose answer cannot be read.  So the timer
    runs between any two consecutive page requests, and the events after the
    last request hold it exactly when that page was read. *)
Theorem fetchRepositories_delay_follows_read_pages github searchTerm type :
  let t := effects (fetchRepositories github searchTerm type) in
  Forall (delay_after github) (snd (segments t))
  /\ Forall (fun seg => filter is_delay (snd seg) = [SetTimeout 1500])
            (removelast (snd (segments t)))
  /\ match last_request t with
     | Some (params, evs) =>
         filter is_delay evs =
         match page_payloads (search_code github params) with
         | Some _ => [SetTimeout 1500]
         | None => []
         end
     | None => True
     end.
Proof.
  intros t.
  assert (H : Forall (delay_after github) (snd (segments t))).
  { unfold t. rewrite fetchRepositories_effects. apply fetch_pages_delays. }
  split; [exact H|]. split.
  { unfold t. rewrite fetchRepositories_effects.
    apply fetch_pages_delay_between. }
  unfold last_request.
  destruct (rev (snd (segments t))) as [|[params evs] rest] eqn:E;
    [exact I|].
  rewrite Forall_forall in H.
  apply (H (params, evs)). apply in_rev. rewrite E. now left.
Qed.

(** A run that stops early: nothing but the error line follows the last
    request. *)
Example fetchRepositories_no_delay_after_refused_page :
  after_last_request
    (effects (fetchRepositories refused_second_page "Dockerfile" filename))
  = [ConsoleError (ApiErrorPage 2 (Some "API rate limit exceeded"))].
Proof. reflexivity. Qed.

(** C6 as stated fails: when the three pages are read, a timer of 1500 ms
    follows the request of the third and last page. *)
Lemma fetchRepositories_delay_after_last_page :
  after_last_request
    (effects (fetchRepositories three_pages "Dockerfile" filename))
  = [ConsoleLog (PageFound 3 0); SetTimeout 1500]
  /\ filter is_delay
       (after_last_request
          (effects (fetchRepositories three_pages "Dockerfile" filename)))
     <> [].
Proof.
  split; [reflexivity|]. discriminate.
Qed.

(* ===================================================================== *)
(** * enrichWithStarCount *)
(* ===================================================================== *)

Lemma forEach_record_stars_nodes nodes m :
  forEach (map edge_of nodes) record_stars m =
  (Normal
     (fold_left
        (fun m n => Map_set String.eqb (nameWithOwner n) (stargazerCount n) m)
        nodes m),
   []).
Proof.
  revert m. induction nodes as [|n nodes IH]; intros m; simpl;
    [reflexivity|].
  rewrite IH. reflexivity.
Qed.

Lemma forEach_record_stars_malformed es m :
  In None es \/ In (Some {| node := None |}) es ->
  exists e, forEach es record_stars m = (Throw e, []).
Proof.
  revert m. induction es as [|edge es IH]; intros m H.
  - destruct H as [[]|[]].
  - destruct edge as [[[n|]]|]; simpl.
    + destruct (IH (Map_set String.eqb (nameWithOwner n) (stargazerCount n) m))
        as [e He].
      { destruct H as [[H|H]|[H|H]]; try discriminate; auto. }
      exists e. rewrite He. reflexivity.
    + eexists. reflexivity.
    + eexists. reflexivity.
Qed.

Lemma edges_read_or_malformed (es : list (option Edge)) :
  (exists nodes, es = map edge_of nodes)
  \/ (In None es \/ In (Some {| node := None |}) es).
Proof.
  induction es as [|edge es IH].
  - left. exists []. reflexivity.
  - destruct edge as [[[n|]]|].
    + destruct IH as [[nodes ->]|[H|H]].
      * left. exists (n :: nodes). reflexivity.
      * right. left. now right.
      * right. right. now right.
    + right. right. now left.
    + right. left. now left.
Qed.

(** Every answer of the enrichment endpoint is a failure or is read to the
    end. *)
Lemma enrichment_failure_or_success (c : Completion (Response GraphQLResponse)) :
  enrichment_failure c \/ exists nodes, c = graphql_success nodes.
Proof.
  destruct c as [[json|json]|e];
    [left; constructor| |left; constructor].
  destruct json as [[[[[[[[es|]]|]]|]]|]|e];
    try solve [left; constructor; constructor].
  destruct (edges_read_or_malformed es) as [[nodes ->]|H].
  - right. exists nodes. reflexivity.
  - left. constructor. now constructor.
Qed.

Section Enrichment.
Variable github : GitHub.

Lemma enrichWithStarCount_empty :
  enrichWithStarCount github [] = (Normal [], []).
Proof. reflexivity. Qed.

Lemma enrichWithStarCount_failure repos :
  repos <> [] ->
  enrichment_failure (graphql github (enrichment_request repos)) ->
  result (enrichWithStarCount github repos) = Normal repos.
Proof.
  intros Hne Hfail. unfold enrichWithStarCount, fetch_post.
  destruct repos as [|repo repos]; [contradiction|].
  change (List.length (repo :: repos) =? 0)%nat with false. cbv iota.
  fold (enrichment_request (repo :: repos)).
  remember (graphql github (enrichment_request (repo :: repos))) as c eqn:Ec.
  clear Ec.
  destruct Hfail as [e|json|json Hparse]; simpl.
  - destruct e; reflexivity.
  - destruct json as [[[msg]|]|[msg|shown]]; reflexivity.
  - destruct Hparse as [e| | | | |es Hes];
      try (destruct e); try reflexivity.
    destruct (forEach_record_stars_malformed es Map_new Hes) as [e' He'].
    simpl. rewrite He'. destruct e'; reflexivity.
Qed.

Lemma enrichWithStarCount_success repos nodes :
  repos <> [] ->
  graphql github (enrichment_request repos) = graphql_success nodes ->
  enrichWithStarCount github repos =
  (Normal (map (enrich_one (starMap_of nodes)) repos),
   [ConsoleLog (FetchingStarCounts (List.length repos));
    HttpPost (enrichment_request repos);
    ConsoleLog (SuccessfullyEnriched (List.length nodes))]).
Proof.
  intros Hne Hok. unfold enrichWithStarCount, fetch_post.
  destruct repos as [|repo repos]; [contradiction|].
  change (List.length (repo :: repos) =? 0)%nat with false. cbv iota.
  fold (enrichment_request (repo :: repos)).
  rewrite Hok. unfold graphql_success.
  unfold emit, await, bind at 4. simpl.
  rewrite forEach_record_stars_nodes. simpl.
  rewrite length_map. reflexivity.
Qed.

(** Whatever the endpoint answers, the function returns, and what it returns
    is the input or the input mapped through a lookup. *)
Lemma enrichWithStarCount_shape repos :
  result (enrichWithStarCount github repos) = Normal repos
  \/ exists starMap,
       result (enrichWithStarCount github repos)
       = Normal (map (enrich_one starMap) repos).
Proof.
  destruct repos as [|repo repos]; [left; reflexivity|].
  destruct (enrichment_failure_or_success
              (graphql github (enrichment_request (repo :: repos))))
    as [Hfail|[nodes Hok]].
  - left. apply enrichWithStarCount_failure; [discriminate|exact Hfail].
  - right. exists (starMap_of nodes).
    rewrite (@enrichWithStarCount_success (repo :: repos) nodes);
      [reflexivity|discriminate|exact Hok].
Qed.
End Enrichment.

Lemma String_eqb_eq : forall a b : string, String.eqb a b = true <-> a = b.
Proof. exact String.eqb_eq. Qed.

(** The keys of the lookup are the names the response carries. *)
Lemma starMap_of_keys nodes k :
  In k (Map_keys (starMap_of nodes)) <-> In k (map nameWithOwner nodes).
Proof.
  unfold starMap_of.
  assert (G : forall m,
    In k (Map_keys (fold_left
      (fun m n => Map_set String.eqb (nameWithOwner n) (stargazerCount n) m)
      nodes m))
    <-> In k (map nameWithOwner nodes) \/ In k (Map_keys m)).
  { induction nodes as [|n nodes IH]; intros m; simpl; [intuition|].
    rewrite IH, (@Map_keys_set_in _ _ _ String_eqb_eq). intuition. }
  rewrite G. simpl. intuition.
Qed.

(** C1. For every non-empty input, when the enrichment request is rejected,
    is answered with a non-success status, or is answered with a body that
    cannot be read (not JSON, [null], without [data], [search] or [edges], or
    with an edge that has no node), [enrichWithStarCount] completes normally
    and returns the input records, same values in the same order. *)
Theorem enrichWithStarCount_degrades_to_input github repos :
  repos <> [] ->
  enrichment_failure (graphql github (enrichment_request repos)) ->
  result (enrichWithStarCount github repos) = Normal repos.
Proof. apply enrichWithStarCount_failure. Qed.

Lemma enrichWithStarCount_degrades_to_input_witness :
  result (enrichWithStarCount graphql_without_data [repo_a; repo_b])
  = Normal [repo_a; repo_b].
Proof.
  apply (@enrichWithStarCount_degrades_to_input graphql_without_data
           [repo_a; repo_b]).
  - discriminate.
  - apply malformed_response, data_missing.
Defined.

(** The lookup holds, for a name, what the last edge with this name carries:
    its star count, or [undefined] when that node has none. *)
Lemma starMap_of_get k nodes :
  Map_get String.eqb k (starMap_of nodes) =
  option_map stargazerCount (last_node k nodes).
Proof.
  unfold starMap_of, last_node.
  assert (G : forall m,
    Map_get String.eqb k
      (fold_left
         (fun m n => Map_set String.eqb (nameWithOwner n) (stargazerCount n) m)
         nodes m)
    = match find (fun n => (nameWithOwner n =? k)%string) (rev nodes) with
      | Some n => Some (stargazerCount n)
      | None => Map_get String.eqb k m
      end).
  { induction nodes as [|n nodes IH]; intros m; simpl; [reflexivity|].
    rewrite IH, find_app. simpl.
    destruct (find (fun n0 => (nameWithOwner n0 =? k)%string) (rev nodes));
      [reflexivity|].
    destruct (nameWithOwner n =? k)%string eqn:E.
    - apply String.eqb_eq in E. subst k.
      apply (@Map_get_set_same _ _ _ String_eqb_eq).
    - apply (@Map_get_set_other _ _ _ String_eqb_eq).
      intros Hk. rewrite Hk, String.eqb_refl in E. discriminate. }
  rewrite G. simpl.
  now destruct (find (fun n => (nameWithOwner n =? k)%string) (rev nodes)).
Qed.




(** A partial match: of two records with 5 stars, only [a/a] is known to the
    endpoint, with 42 stars. *)
Example enrichWithStarCount_partial_match :
  result (enrichWithStarCount knows_a [repo_a; repo_b])
  = Normal [{| id := 1; name := "a"; full_name := "a/a";
               stargazers_count := 42;
               html_url := "https://github.com/a/a" |};
            repo_b].
Proof. reflexivity. Qed.

(** C4. On every input and every answer of the endpoint,
    [enrichWithStarCount] returns a sequence of the length of its input, whose
    record at each position has the id of the input record at that position;
    so no id that is absent from the input occurs in the output. *)
Theorem enrichWithStarCount_same_length_and_ids github repos :
  exists out,
    result (enrichWithStarCount github repos) = Normal out
    /\ List.length out = List.length repos
    /\ map id out = map id repos
    /\ forall repo', In repo' out -> In (id repo') (map id repos).
Proof.
  assert (Hids : forall starMap,
            map id (map (enrich_one starMap) repos) = map id repos).
  { intros starMap. rewrite map_map. apply map_ext. intros repo.
    unfold enrich_one.
    now destruct (Map_get String.eqb (full_name repo) starMap) as [[v|]|]. }
  destruct (enrichWithStarCount_shape github repos) as [H|[starMap H]].
  - exists repos. repeat split; auto. intros repo'. apply in_map.
  - exists (map (enrich_one starMap) repos). repeat split; auto.
    + apply length_map.
    + intros repo' Hin. rewrite <- (Hids starMap). now apply in_map.
Qed.

(** C9. On every input and every answer of the endpoint, the record that
    [enrichWithStarCount] returns at a position has the [id], [name],
    [full_name] and [html_url] of the input record at that position: only
    [stargazers_count] may differ, and the output has no further record. *)
Theorem enrichWithStarCount_touches_stars_only github repos :
  exists out,
    result (enrichWithStarCount github repos) = Normal out
    /\ Forall2
         (fun repo repo' =>
            id repo' = id repo
            /\ name repo' = name repo
            /\ full_name repo' = full_name repo
            /\ html_url repo' = html_url repo)
         repos out.
Proof.
  destruct (enrichWithStarCount_shape github repos) as [H|[starMap H]].
  - exists repos. split; [exact H|].
    clear H. induction repos; constructor; auto.
  - exists (map (enrich_one starMap) repos). split; [exact H|].
    clear H. induction repos as [|repo repos IH]; constructor; auto.
    unfold enrich_one.
    destruct (Map_get String.eqb (full_name repo) starMap) as [[v|]|];
      simpl; auto.
Qed.

(* ===================================================================== *)
(** * The sort of printResults *)
(* ===================================================================== *)

Section SortByKey.
Variable A : Type.
Variable key : A -> Z.

Local Abbreviation comparefn := (by_key_desc key).
Local Abbreviation key_ge := (key_ge_of key).
Local Abbreviation has_key := (has_key_of key).

Lemma sort_insert_perm x l :
  Permutation (x :: l) (sort_insert comparefn x l).
Proof.
  induction l as [|y l IH]; simpl; [reflexivity|].
  destruct (comparefn x y <=? 0); [reflexivity|].
  rewrite perm_swap. now constructor.
Qed.

Lemma Array_sort_perm l : Permutation l (Array_sort comparefn l).
Proof.
  induction l as [|x l IH]; simpl; [constructor|].
  rewrite <- sort_insert_perm. now constructor.
Qed.

Lemma sort_insert_sorted x l :
  StronglySorted key_ge l -> StronglySorted key_ge (sort_insert comparefn x l).
Proof.
  induction 1 as [|y l Hl IH Hy]; simpl.
  - repeat constructor.
  - unfold by_key_desc at 1. destruct (key y - key x <=? 0) eqn:E.
    + apply Z.leb_le in E. constructor; [now constructor|].
      constructor; [unfold key_ge_of; lia|].
      eapply Forall_impl; [|exact Hy].
      unfold key_ge_of. intros z Hz. lia.
    + apply Z.leb_gt in E. constructor; [exact IH|].
      rewrite Forall_forall. intros z Hz.
      apply (Permutation_in z (Permutation_sym (sort_insert_perm x l))) in Hz.
      destruct Hz as [<-|Hz]; [unfold key_ge_of; lia|].
      rewrite Forall_forall in Hy. now apply Hy.
Qed.

Lemma Array_sort_sorted l : StronglySorted key_ge (Array_sort comparefn l).
Proof.
  induction l as [|x l IH]; simpl; [constructor|].
  now apply sort_insert_sorted.
Qed.

Lemma sort_insert_filter s x l :
  filter (has_key s) (sort_insert comparefn x l) =
  filter (has_key s) (x :: l).
Proof.
  induction l as [|y l IH]; simpl; [reflexivity|].
  unfold by_key_desc at 1. destruct (key y - key x <=? 0) eqn:E;
    [reflexivity|].
  apply Z.leb_gt in E. simpl. rewrite IH. simpl. unfold has_key_of.
  destruct (key x =? s) eqn:Ex; [|reflexivity].
  apply Z.eqb_eq in Ex.
  destruct (key y =? s) eqn:Ey; [|reflexivity].
  apply Z.eqb_eq in Ey. lia.
Qed.

(** Stability: the records of one key keep their relative order. *)
Lemma Array_sort_stable s l :
  filter (has_key s) (Array_sort comparefn l) = filter (has_key s) l.
Proof.
  induction l as [|x l IH]; simpl; [reflexivity|].
  rewrite sort_insert_filter. simpl. now rewrite IH.
Qed.

Lemma filter_has_key_head x l : In x (filter (has_key (key x)) (x :: l)).
Proof. simpl. unfold has_key_of. rewrite Z.eqb_refl. now left. Qed.

(** Two arrangements in descending order that agree key by key are equal. *)
Lemma sorted_stable_unique l1 :
  forall l2,
    StronglySorted key_ge l1 -> StronglySorted key_ge l2 ->
    (forall s, filter (has_key s) l1 = filter (has_key s) l2) ->
    l1 = l2.
Proof.
  induction l1 as [|x t1 IH]; intros [|y t2] H1 H2 Hf.
  - reflexivity.
  - pose proof (filter_has_key_head y t2) as Hy.
    rewrite <- Hf in Hy. destruct Hy.
  - pose proof (filter_has_key_head x t1) as Hx.
    rewrite Hf in Hx. destruct Hx.
  - inversion H1 as [|? ? Ht1 Hx1]; subst.
    inversion H2 as [|? ? Ht2 Hy2]; subst.
    rewrite Forall_forall in Hx1, Hy2.
    assert (Hk : key x = key y).
    { destruct (Z.eq_dec (key x) (key y)) as [|Hne]; [assumption|].
      pose proof (filter_has_key_head x t1) as Hx.
      rewrite Hf in Hx. apply filter_In in Hx. destruct Hx as [[->|Hx] _];
        [contradiction|].
      pose proof (filter_has_key_head y t2) as Hy.
      rewrite <- Hf in Hy. apply filter_In in Hy.
      destruct Hy as [[->|Hy] _]; [contradiction|].
      apply Hy2 in Hx. apply Hx1 in Hy. unfold key_ge_of in *. lia. }
    assert (Hxy : x = y).
    { specialize (Hf (key x)). simpl in Hf. unfold has_key_of in Hf.
      rewrite <- Hk, Z.eqb_refl in Hf. now inversion Hf. }
    subst y. f_equal. apply IH; auto.
    intros s. specialize (Hf s). simpl in Hf.
    destruct (has_key s x); [now inversion Hf|exact Hf].
Qed.

(** Any stable sort by this comparator computes what [Array_sort] does. *)
Lemma Array_sort_unique l l' :
  StronglySorted key_ge l' ->
  (forall s, filter (has_key s) l' = filter (has_key s) l) ->
  l' = Array_sort comparefn l.
Proof.
  intros Hs Hf. apply sorted_stable_unique; auto.
  - apply Array_sort_sorted.
  - intros s. now rewrite Array_sort_stable.
Qed.
End SortByKey.

(* ===================================================================== *)
(** * The store *)
(* ===================================================================== *)

Lemma write_length heap r a : List.length (write heap r a) = List.length heap.
Proof.
  revert r. induction heap as [|a0 heap IH]; intros [|r]; simpl; auto.
Qed.

Lemma read_write_same heap r a :
  (r < List.length heap)%nat -> read (write heap r a) r = a.
Proof.
  unfold read. revert r.
  induction heap as [|a0 heap IH]; intros [|r] H; simpl in *; try lia; auto.
  apply IH. lia.
Qed.

Lemma read_write_other heap r r' a :
  r <> r' -> read (write heap r a) r' = read heap r'.
Proof.
  unfold read. revert r r'.
  induction heap as [|a0 heap IH]; intros [|r] [|r'] H; simpl; auto;
    try contradiction.
Qed.

Lemma read_unallocated heap r :
  (List.length heap <= r)%nat -> read heap r = [].
Proof. intros H. unfold read. now apply nth_overflow. Qed.

Lemma write_unallocated heap r a :
  (List.length heap <= r)%nat -> write heap r a = heap.
Proof.
  revert r. induction heap as [|a0 heap IH]; intros [|r] H; simpl in *;
    try lia; auto.
  f_equal. apply IH. lia.
Qed.

(** What the caller's array holds once [sort] has run on it. *)
Lemma read_after_sort heap repos :
  read (write heap repos (Array_sort by_stars_desc (read heap repos))) repos
  = Array_sort by_stars_desc (read heap repos).
Proof.
  destruct (Nat.lt_ge_cases repos (List.length heap)) as [H|H].
  - now apply read_write_same.
  - rewrite write_unallocated by exact H.
    rewrite (read_unallocated heap H). reflexivity.
Qed.

(* ===================================================================== *)
(** * Filter and report *)
(* ===================================================================== *)

(** C7. The filter of [main] keeps the records that have at least 100 stars
    and drops the others, in the order of its input: a record is in the
    output exactly when it is in the input with [stargazers_count >= 100]; a
    record with exactly 100 stars is kept and one with 99 is dropped. *)
Theorem filter_by_stars_threshold (reposWithStars : list Repository) :
  (forall repo,
     In repo (filter_by_stars reposWithStars) <->
     In repo reposWithStars /\ stargazers_count repo >= 100)
  /\ (forall repo,
        filter_by_stars (repo :: reposWithStars) =
        if 100 <=? stargazers_count repo
        then repo :: filter_by_stars reposWithStars
        else filter_by_stars reposWithStars)
  /\ (forall repo,
        filter_by_stars [with_stargazers_count repo 100]
        = [with_stargazers_count repo 100])
  /\ (forall repo, filter_by_stars [with_stargazers_count repo 99] = []).
Proof.
  unfold filter_by_stars, star_threshold.
  split; [|split; [|split]].
  - intros repo. rewrite filter_In, Z.geb_le. intuition lia.
  - intros repo. simpl. rewrite Z.geb_leb. reflexivity.
  - reflexivity.
  - reflexivity.
Qed.

(** C8. [printResults] prints the records of the array it is given in
    descending order of [stargazers_count], records with equal counts in
    their original relative order: what is printed is a rearrangement of the
    input that is sorted and that agrees with the input star count by star
    count.  For the counts 50, 200, 200, 10 the order is the two records
    with 200 as they came, then 50, then 10. *)
Theorem printResults_sorts_stably (heap : Store) (repos : Ref) :
  (exists out,
     effects (printResults repos heap) = print_from 0%nat out
     /\ Permutation (read heap repos) out
     /\ StronglySorted stars_ge out
     /\ forall s,
          filter (has_stars s) out = filter (has_stars s) (read heap repos))
  /\ forall a b c d,
       effects
         (printResults 0%nat
            [[with_stargazers_count a 50; with_stargazers_count b 200;
              with_stargazers_count c 200; with_stargazers_count d 10]])
       = print_from 0%nat
           [with_stargazers_count b 200; with_stargazers_count c 200;
            with_stargazers_count a 50; with_stargazers_count d 10].
Proof.
  split.
  - exists (Array_sort by_stars_desc (read heap repos)).
    split; [|split; [|split]].
    + unfold printResults, effects. simpl. now rewrite read_after_sort.
    + apply (Array_sort_perm stargazers_count).
    + apply (Array_sort_sorted stargazers_count).
    + intros s. apply (Array_sort_stable stargazers_count).
  - intros a b c d. reflexivity.
Qed.

(** C10. [printResults] sorts the array of its caller: when it returns, the
    store holds at the reference it was given the records that were there,
    in descending order of [stargazers_count]; the other arrays of the store
    are as they were. *)
Theorem printResults_sorts_in_place (heap : Store) (repos : Ref) :
  exists heap',
    result (printResults repos heap) = Normal heap'
    /\ read heap' repos = Array_sort by_stars_desc (read heap repos)
    /\ StronglySorted stars_ge (read heap' repos)
    /\ Permutation (read heap repos) (read heap' repos)
    /\ List.length heap' = List.length heap
    /\ forall other, other <> repos -> read heap' other = read heap other.
Proof.
  exists (write heap repos (Array_sort by_stars_desc (read heap repos))).
  split; [reflexivity|].
  rewrite read_after_sort.
  split; [reflexivity|]. split; [|split; [|split]].
  - apply (Array_sort_sorted stargazers_count).
  - apply (Array_sort_perm stargazers_count).
  - apply write_length.
  - intros other H. apply read_write_other. congruence.
Qed.

(** The array of the caller does change: two records in ascending order are
    found swapped after the call. *)
Example printResults_reorders_caller_array :
  let low := with_stargazers_count repo_a 150 in
  let high := with_stargazers_count repo_b 300 in
  result (printResults 0%nat [[low; high]]) = Normal [[high; low]].
Proof. reflexivity. Qed.

(* ===================================================================== *)
(** * main *)
(* ===================================================================== *)

(** X11. Nothing escapes [main]: whatever the two endpoints answer, the
    pipeline of [main] completes normally; what a stage throws is caught and
    logged. *)
Lemma main_never_throws github searchTerm searchType heap :
  exists heap', result (main github searchTerm searchType heap) = Normal heap'.
Proof.
  unfold main.
  match goal with
  | |- context [try_catch ?m _] => destruct m as [[heap'|[msg|shown]] t]
  end; eexists; reflexivity.
Qed.

(** An error thrown by the discovery stage ends the run without a report. *)
Example main_logs_discovery_error :
  main garbled_second_page "Dockerfile" filename [] =
  (Normal [],
   [ConsoleLog (FetchingPage 1 "Dockerfile");
    HttpGet (page_request "Dockerfile" filename 1);
    ConsoleLog (PageFound 1 2);
    SetTimeout 1500;
    ConsoleLog (FetchingPage 2 "Dockerfile");
    HttpGet (page_request "Dockerfile" filename 2);
    ConsoleError (FatalError "Unexpected token < in JSON")]).
Proof. reflexivity. Qed.

(* ===================================================================== *)
(** * fetchRepositories: the requests of a run *)
(* ===================================================================== *)

Section DiscoveryRequests.
Variable github : GitHub.
Variable searchTerm : string.
Variable type : SearchType.

Local Abbreviation request := (page_request searchTerm type).
Local Abbreviation loop fuel := (fetch_pages github fuel searchTerm type).

Lemma page_requests_step fuel page m :
  page <= 3 ->
  page_requests (effects (loop (S fuel) page m)) =
  request page ::
  match page_payloads (search_code github (request page)) with
  | Some l => page_requests (effects (loop fuel (page + 1) (insert_all l m)))
  | None => []
  end.
Proof.
  intros Hp.
  destruct (page_payloads (search_code github (request page))) as [l|] eqn:E1.
  - rewrite (fetch_pages_read github searchTerm type fuel m Hp E1).
    reflexivity.
  - destruct (page_refused (search_code github (request page)))
      as [error|] eqn:E2.
    + rewrite (fetch_pages_refused github searchTerm type fuel m Hp E2).
      reflexivity.
    + destruct (fetch_pages_throws github searchTerm type fuel m Hp E1 E2)
        as (e & t & Heq & Ht).
      rewrite Heq. destruct Ht as [->|[n ->]]; reflexivity.
Qed.

Lemma fetch_pages_no_graphql fuel page m :
  graphql_requests (effects (loop fuel page m)) = [].
Proof.
  revert page m. induction fuel as [|fuel IH]; intros page m; [reflexivity|].
  destruct (Z_le_gt_dec page 3) as [Hp|Hp].
  - destruct (page_payloads (search_code github (request page)))
      as [l|] eqn:E1.
    + rewrite (fetch_pages_read github searchTerm type fuel m Hp E1).
      simpl. apply IH.
    + destruct (page_refused (search_code github (request page)))
        as [error|] eqn:E2.
      * rewrite (fetch_pages_refused github searchTerm type fuel m Hp E2).
        reflexivity.
      * destruct (fetch_pages_throws github searchTerm type fuel m Hp E1 E2)
          as (e & t & Heq & Ht).
        rewrite Heq. destruct Ht as [->|[n ->]]; reflexivity.
  - rewrite fetch_pages_done by lia. reflexivity.
Qed.
End DiscoveryRequests.

(** X1. [fetchRepositories] always requests page 1, requests page 2 exactly
    when page 1 was read and page 3 exactly when pages 1 and 2 were read; it
    requests no page twice, no page beyond the third, and never calls the
    enrichment endpoint. *)
Theorem fetchRepositories_pages_requested github searchTerm type :
  page_requests (effects (fetchRepositories github searchTerm type)) =
    page_request searchTerm type 1 ::
    match page_payloads (search_code github (page_request searchTerm type 1)) with
    | Some _ =>
        page_request searchTerm type 2 ::
        match page_payloads
                (search_code github (page_request searchTerm type 2)) with
        | Some _ => [page_request searchTerm type 3]
        | None => []
        end
    | None => []
    end
  /\ graphql_requests (effects (fetchRepositories github searchTerm type)) = [].
Proof.
  rewrite fetchRepositories_effects. split; [|apply fetch_pages_no_graphql].
  rewrite page_requests_step by lia. f_equal.
  destruct (page_payloads (search_code github (page_request searchTerm type 1)))
    as [l1|]; [|reflexivity].
  change (1 + 1) with 2.
  rewrite page_requests_step by lia. f_equal.
  destruct (page_payloads (search_code github (page_request searchTerm type 2)))
    as [l2|]; [|reflexivity].
  change (2 + 1) with 3.
  rewrite page_requests_step by lia. f_equal.
  now destruct (page_payloads
                  (search_code github (page_request searchTerm type 3))).
Qed.

(* ===================================================================== *)
(** * fetchRepositories: the order of the records *)
(* ===================================================================== *)

Section JsMapOrder.
Variable K V : Type.
Variable eqb : K -> K -> bool.
Hypothesis eqb_eq : forall a b, eqb a b = true <-> a = b.

(** [set] on a new key appends an entry. *)
Lemma Map_set_fresh k v (m : JsMap K V) :
  ~ In k (Map_keys m) -> Map_set eqb k v m = m ++ [(k, v)].
Proof.
  unfold Map_keys. induction m as [|[k0 v0] m IH]; simpl; intros H;
    [reflexivity|].
  destruct (eqb k k0) eqn:E.
  - apply eqb_eq in E. subst k0. exfalso. apply H. now left.
  - f_equal. apply IH. intros Hin. apply H. now right.
Qed.

(** [set] on a key that is present leaves the order of the keys. *)
Lemma Map_set_present_keys k v (m : JsMap K V) :
  In k (Map_keys m) -> Map_keys (Map_set eqb k v m) = Map_keys m.
Proof.
  unfold Map_keys. induction m as [|[k0 v0] m IH]; simpl; intros H;
    [destruct H|].
  destruct (eqb k k0) eqn:E; simpl.
  - apply eqb_eq in E. now subst k0.
  - f_equal. apply IH. destruct H as [->|H]; [|exact H].
    rewrite (proj2 (eqb_eq k k) eq_refl) in E. discriminate.
Qed.
End JsMapOrder.

Lemma insert_all_snoc seen repo m :
  insert_all (seen ++ [repo]) m =
  Map_set Z.eqb (id repo) repo (insert_all seen m).
Proof. now rewrite insert_all_app. Qed.

Lemma insert_all_keys_first_seen seen :
  Map_keys (insert_all seen Map_new) = first_seen_ids seen.
Proof.
  unfold first_seen_ids.
  induction seen as [|repo seen IH] using rev_ind; [reflexivity|].
  rewrite insert_all_snoc, map_app, rev_app_distr. simpl.
  destruct (in_dec Z.eq_dec (id repo) (rev (map id seen))) as [Hin|Hnot].
  - rewrite <- IH. apply (@Map_set_present_keys _ _ _ Z_eqb_eq).
    apply insert_all_keys_in. left. now apply in_rev.
  - simpl. rewrite <- IH.
    rewrite (@Map_set_fresh _ _ _ Z_eqb_eq).
    + unfold Map_keys. now rewrite map_app.
    + intros Hin. apply insert_all_keys_in in Hin.
      destruct Hin as [Hin|[]]. apply Hnot. now apply in_rev in Hin.
Qed.

Lemma insert_all_distinct seen :
  NoDup (map id seen) ->
  insert_all seen Map_new = map (fun repo => (id repo, repo)) seen.
Proof.
  induction seen as [|repo seen IH] using rev_ind; intros Hnd;
    [reflexivity|].
  rewrite map_app in Hnd. simpl in Hnd.
  pose proof (NoDup_remove_1 _ _ _ Hnd) as Hnd'.
  pose proof (NoDup_remove_2 _ _ _ Hnd) as Hfresh.
  rewrite app_nil_r in Hnd', Hfresh.
  rewrite insert_all_snoc, IH by exact Hnd'.
  rewrite (@Map_set_fresh _ _ _ Z_eqb_eq).
  - now rewrite map_app.
  - unfold Map_keys. rewrite map_map. exact Hfresh.
Qed.

(** X2. The records that [fetchRepositories] returns stand in the order in
    which their ids were first seen among the items processed: an id seen
    again later keeps its place (and, by C5, takes the later payload). *)
Theorem fetchRepositories_first_seen_order github searchTerm type out :
  result (fetchRepositories github searchTerm type) = Normal out ->
  map id out = first_seen_ids (processed github searchTerm type).
Proof.
  intros H. rewrite fetchRepositories_result in H.
  destruct (result (fetch_pages github 3 searchTerm type 1 Map_new))
    as [m|e] eqn:E; [|discriminate].
  inversion H; subst out; clear H.
  apply fetch_pages_returns in E. fold (processed github searchTerm type) in E.
  subst m.
  rewrite keyed_by_id_ids by (apply keyed_by_id_insert_all; constructor).
  apply insert_all_keys_first_seen.
Qed.

Lemma fetchRepositories_first_seen_order_witness :
  map id [repo_a_again; repo_b] =
  first_seen_ids (processed three_pages "Dockerfile" filename).
Proof.
  apply (@fetchRepositories_first_seen_order three_pages "Dockerfile" filename).
  reflexivity.
Defined.

(** X3. When no id repeats among the items processed, [fetchRepositories]
    returns exactly their payloads, in the order of the pages. *)
Theorem fetchRepositories_distinct_ids_kept github searchTerm type out :
  NoDup (map id (processed github searchTerm type)) ->
  result (fetchRepositories github searchTerm type) = Normal out ->
  out = processed github searchTerm type.
Proof.
  intros Hnd H. rewrite fetchRepositories_result in H.
  destruct (result (fetch_pages github 3 searchTerm type 1 Map_new))
    as [m|e] eqn:E; [|discriminate].
  inversion H; subst out; clear H.
  apply fetch_pages_returns in E. fold (processed github searchTerm type) in E.
  subst m. rewrite insert_all_distinct by exact Hnd.
  unfold Map_values. rewrite map_map. simpl. apply map_id.
Qed.

Lemma fetchRepositories_distinct_ids_kept_witness :
  [repo_a; repo_b] = processed refused_second_page "Dockerfile" filename.
Proof.
  apply (@fetchRepositories_distinct_ids_kept refused_second_page
           "Dockerfile" filename).
  - repeat constructor; simpl; intuition discriminate.
  - reflexivity.
Defined.

Lemma fetchRepositories_three_pages_read_witness :
  result (fetchRepositories three_pages "Dockerfile" filename)
  = Normal (dedup ([repo_a; repo_b] ++ [repo_a_again] ++ [])).
Proof.
  apply (@fetchRepositories_three_pages_read three_pages "Dockerfile" filename);
    reflexivity.
Defined.

(* ===================================================================== *)
(** * enrichWithStarCount: requests, diagnostics, repetition *)
(* ===================================================================== *)

Lemma enrichWithStarCount_failure_run github repos :
  repos <> [] ->
  enrichment_failure (graphql github (enrichment_request repos)) ->
  exists line,
    enrichWithStarCount github repos =
    (Normal repos,
     [ConsoleLog (FetchingStarCounts (List.length repos));
      HttpPost (enrichment_request repos);
      ConsoleError line]).
Proof.
  intros Hne Hfail. unfold enrichWithStarCount, fetch_post.
  destruct repos as [|repo repos]; [contradiction|].
  change (List.length (repo :: repos) =? 0)%nat with false. cbv iota.
  fold (enrichment_request (repo :: repos)).
  remember (graphql github (enrichment_request (repo :: repos))) as c eqn:Ec.
  clear Ec.
  destruct Hfail as [e|json|json Hparse]; simpl.
  - destruct e; eexists; reflexivity.
  - destruct json as [[[msg]|]|[msg|shown]]; eexists; reflexivity.
  - destruct Hparse as [e| | | | |es Hes];
      try (destruct e); try (eexists; reflexivity).
    destruct (forEach_record_stars_malformed es Map_new Hes) as [e' He'].
    simpl. rewrite He'. destruct e'; eexists; reflexivity.
Qed.

(** X5. Every failure of the enrichment is reported once: on a non-empty
    input, a rejected request, a non-success status or an unreadable body
    makes [enrichWithStarCount] send its one request, write exactly one line
    to the error console, and return the input. *)
Theorem enrichWithStarCount_failure_logged_once github repos :
  repos <> [] ->
  enrichment_failure (graphql github (enrichment_request repos)) ->
  result (enrichWithStarCount github repos) = Normal repos
  /\ graphql_requests (effects (enrichWithStarCount github repos))
     = [enrichment_request repos]
  /\ exists line,
       console_errors (effects (enrichWithStarCount github repos)) = [line].
Proof.
  intros Hne Hfail.
  destruct (enrichWithStarCount_failure_run github Hne Hfail) as [line Hrun].
  rewrite Hrun. split; [reflexivity|]. split; [reflexivity|].
  exists line. reflexivity.
Qed.

Lemma enrichWithStarCount_failure_logged_once_witness :
  result (enrichWithStarCount graphql_without_data [repo_a; repo_b])
    = Normal [repo_a; repo_b]
  /\ graphql_requests
       (effects (enrichWithStarCount graphql_without_data [repo_a; repo_b]))
     = [enrichment_request [repo_a; repo_b]]
  /\ exists line,
       console_errors
         (effects (enrichWithStarCount graphql_without_data [repo_a; repo_b]))
       = [line].
Proof.
  apply (@enrichWithStarCount_failure_logged_once graphql_without_data
           [repo_a; repo_b]).
  - discriminate.
  - apply malformed_response, data_missing.
Defined.

(** X6. [enrichWithStarCount] sends no request for an empty input and exactly
    one for a non-empty input, whatever the endpoint answers: the query
    joins one [repo:<full_name>] term per record with spaces and asks for as
    many results as there are records.  It never calls the search endpoint,
    and it writes to the error console only when the enrichment failed. *)
Theorem enrichWithStarCount_one_request github repos :
  graphql_requests (effects (enrichWithStarCount github repos)) =
    match repos with
    | [] => []
    | _ :: _ =>
        [{| search_query :=
              String.concat " "
                (map (fun repo => ("repo:" ++ full_name repo)%string) repos);
            first := List.length repos |}]
    end
  /\ page_requests (effects (enrichWithStarCount github repos)) = []
  /\ (console_errors (effects (enrichWithStarCount github repos)) <> [] ->
      enrichment_failure (graphql github (enrichment_request repos))).
Proof.
  destruct repos as [|repo repos].
  - repeat split; try reflexivity. intros H. now contradiction H.
  - destruct (enrichment_failure_or_success
                (graphql github (enrichment_request (repo :: repos))))
      as [Hfail|[nodes Hok]].
    + destruct (@enrichWithStarCount_failure_run github (repo :: repos)
                  ltac:(discriminate) Hfail) as [line Hrun].
      rewrite Hrun. repeat split; try reflexivity. intros _. exact Hfail.
    + rewrite (@enrichWithStarCount_success github (repo :: repos) nodes
                 ltac:(discriminate) Hok).
      repeat split; try reflexivity. intros H. now contradiction H.
Qed.

Lemma enrich_one_idempotent starMap repo :
  enrich_one starMap (enrich_one starMap repo) = enrich_one starMap repo.
Proof.
  unfold enrich_one at 2.
  destruct (Map_get String.eqb (full_name repo) starMap) as [[v|]|] eqn:E.
  - unfold enrich_one. simpl. now rewrite E.
  - unfold enrich_one. now rewrite E.
  - unfold enrich_one. now rewrite E.
Qed.

Lemma enrich_one_full_name starMap repo :
  full_name (enrich_one starMap repo) = full_name repo.
Proof.
  unfold enrich_one.
  now destruct (Map_get String.eqb (full_name repo) starMap) as [[v|]|].
Qed.

Lemma enrichment_request_enriched starMap repos :
  enrichment_request (map (enrich_one starMap) repos) = enrichment_request repos.
Proof.
  unfold enrichment_request, repoQueries.
  rewrite length_map, map_map. f_equal. f_equal.
  apply map_ext. intros repo. now rewrite enrich_one_full_name.
Qed.

(** X7. Enriching twice changes nothing more: when the endpoint answers a
    request the same way, [enrichWithStarCount] applied to its own output
    sends the same request and returns that output again. *)
Theorem enrichWithStarCount_idempotent github repos :
  exists out,
    result (enrichWithStarCount github repos) = Normal out
    /\ enrichment_request out = enrichment_request repos
    /\ result (enrichWithStarCount github out) = Normal out.
Proof.
  destruct repos as [|repo repos].
  - exists []. repeat split; reflexivity.
  - destruct (enrichment_failure_or_success
                (graphql github (enrichment_request (repo :: repos))))
      as [Hfail|[nodes Hok]].
    + exists (repo :: repos).
      pose proof (@enrichWithStarCount_failure github (repo :: repos)
                    ltac:(discriminate) Hfail) as H.
      repeat split; auto.
    + exists (map (enrich_one (starMap_of nodes)) (repo :: repos)).
      split; [|split].
      * now rewrite (@enrichWithStarCount_success github (repo :: repos) nodes
                       ltac:(discriminate) Hok).
      * apply enrichment_request_enriched.
      * rewrite (@enrichWithStarCount_success github
                   (map (enrich_one (starMap_of nodes)) (repo :: repos)) nodes).
        -- simpl. f_equal. rewrite enrich_one_idempotent. f_equal.
           rewrite map_map. apply map_ext. intros r.
           apply enrich_one_idempotent.
        -- discriminate.
        -- now rewrite enrichment_request_enriched.
Qed.

(** X8. When the response names a repository in several edges, the last of
    them decides: the record takes its star count, every other field as it
    was, and stays unchanged when that last node has no star count. *)
Theorem enrichWithStarCount_last_edge_wins github repos nodes i repo n :
  graphql github (enrichment_request repos) = graphql_success nodes ->
  nth_error repos i = Some repo ->
  last_node (full_name repo) nodes = Some n ->
  exists out,
    result (enrichWithStarCount github repos) = Normal out
    /\ nth_error out i =
       Some match stargazerCount n with
            | Some v =>
                {| id := id repo;
                   name := name repo;
                   full_name := full_name repo;
                   stargazers_count := v;
                   html_url := html_url repo |}
            | None => repo
            end.
Proof.
  intros Hok Hi Hlast.
  assert (Hne : repos <> []) by (intros ->; destruct i; discriminate).
  exists (map (enrich_one (starMap_of nodes)) repos). split.
  - now rewrite (enrichWithStarCount_success github Hne Hok).
  - rewrite nth_error_map, Hi. simpl. unfold enrich_one.
    rewrite starMap_of_get, Hlast. simpl.
    now destruct (stargazerCount n).
Qed.

Lemma enrichWithStarCount_last_edge_wins_witness :
  exists out,
    result (enrichWithStarCount knows_a_twice [repo_b; repo_a]) = Normal out
    /\ nth_error out 1 =
       Some {| id := 1; name := "a"; full_name := "a/a";
               stargazers_count := 43;
               html_url := "https://github.com/a/a" |}.
Proof.
  apply (@enrichWithStarCount_last_edge_wins knows_a_twice [repo_b; repo_a]
           [{| nameWithOwner := "a/a"; stargazerCount := Some 42 |};
            {| nameWithOwner := "a/a"; stargazerCount := Some 43 |}]
           1%nat repo_a {| nameWithOwner := "a/a"; stargazerCount := Some 43 |});
    reflexivity.
Defined.

(* ===================================================================== *)
(** * printResults: ranks and repetition *)
(* ===================================================================== *)

Lemma print_from_ranks i repos :
  printed_ranks (print_from i repos) = seq (i + 1) (List.length repos).
Proof.
  revert i. induction repos as [|repo repos IH]; intros i; [reflexivity|].
  simpl. f_equal. apply (IH (S i)).
Qed.

Lemma print_from_length i repos :
  List.length (print_from i repos) = (2 * List.length repos)%nat.
Proof.
  revert i. induction repos as [|repo repos IH]; intros i; [reflexivity|].
  simpl. rewrite (IH (S i)). lia.
Qed.

Lemma print_from_no_requests i repos :
  page_requests (print_from i repos) = []
  /\ graphql_requests (print_from i repos) = []
  /\ console_errors (print_from i repos) = [].
Proof.
  revert i. induction repos as [|repo repos IH]; intros i; simpl; auto.
Qed.

Lemma Array_sort_length repos :
  List.length (Array_sort by_stars_desc repos) = List.length repos.
Proof.
  symmetry. apply Permutation_length, (Array_sort_perm stargazers_count).
Qed.

Lemma Array_sort_sorted_id repos :
  StronglySorted stars_ge repos -> Array_sort by_stars_desc repos = repos.
Proof.
  intros H. symmetry.
  apply (@Array_sort_unique _ stargazers_count); [exact H|reflexivity].
Qed.

Lemma write_write heap r a : write (write heap r a) r a = write heap r a.
Proof.
  revert r. induction heap as [|a0 heap IH]; intros [|r]; simpl; auto.
  f_equal. apply IH.
Qed.

(** X9. [printResults] prints two lines per record of the array, and the
    ranks on the report lines are 1, 2, ... up to the number of records, in
    this order. *)
Theorem printResults_ranks (heap : Store) (repos : Ref) :
  printed_ranks (effects (printResults repos heap))
    = seq 1 (List.length (read heap repos))
  /\ List.length (effects (printResults repos heap))
     = (2 * List.length (read heap repos))%nat.
Proof.
  unfold printResults, effects. simpl snd.
  rewrite read_after_sort, print_from_ranks, print_from_length.
  now rewrite Array_sort_length.
Qed.

(** X10. Calling [printResults] again on the same array changes nothing
    more: the store stays as the first call left it and the same lines are
    printed. *)
Theorem printResults_twice (heap : Store) (repos : Ref) :
  exists heap',
    result (printResults repos heap) = Normal heap'
    /\ printResults repos heap'
       = (Normal heap', effects (printResults repos heap)).
Proof.
  exists (write heap repos (Array_sort by_stars_desc (read heap repos))).
  split; [reflexivity|].
  unfold printResults, effects. simpl snd.
  pose proof (read_after_sort heap repos) as Hread.
  set (sorted := Array_sort by_stars_desc (read heap repos)) in *.
  assert (Hid : Array_sort by_stars_desc sorted = sorted)
    by apply Array_sort_sorted_id, (Array_sort_sorted stargazers_count).
  rewrite Hread, Hid, write_write, Hread. reflexivity.
Qed.

(* ===================================================================== *)
(** * main: the pipeline as a whole *)
(* ===================================================================== *)

Lemma read_alloc heap a : read (heap ++ [a]) (List.length heap) = a.
Proof. unfold read. apply nth_middle. Qed.

Lemma write_alloc heap a b :
  write (heap ++ [a]) (List.length heap) b = heap ++ [b].
Proof. induction heap as [|a0 heap IH]; simpl; [reflexivity|now rewrite IH]. Qed.

Lemma fetch_pages_no_report github searchTerm type fuel page m :
  printed_ranks (effects (fetch_pages github fuel searchTerm type page m)) = [].
Proof.
  revert page m. induction fuel as [|fuel IH]; intros page m; [reflexivity|].
  destruct (Z_le_gt_dec page 3) as [Hp|Hp].
  - destruct (page_payloads
                (search_code github (page_request searchTerm type page)))
      as [l|] eqn:E1.
    + rewrite (fetch_pages_read github searchTerm type fuel m Hp E1).
      simpl. apply IH.
    + destruct (page_refused
                  (search_code github (page_request searchTerm type page)))
        as [error|] eqn:E2.
      * rewrite (fetch_pages_refused github searchTerm type fuel m Hp E2).
        reflexivity.
      * destruct (fetch_pages_throws github searchTerm type fuel m Hp E1 E2)
          as (e & t & Heq & Ht).
        rewrite Heq. destruct Ht as [->|[n ->]]; reflexivity.
  - rewrite fetch_pages_done by lia. reflexivity.
Qed.

(** The effects of [enrichWithStarCount], by case. *)
Lemma enrichWithStarCount_effects github repos :
  effects (enrichWithStarCount github repos) = []
  \/ (exists line,
        effects (enrichWithStarCount github repos) =
        [ConsoleLog (FetchingStarCounts (List.length repos));
         HttpPost (enrichment_request repos);
         ConsoleError line])
  \/ (exists n,
        effects (enrichWithStarCount github repos) =
        [ConsoleLog (FetchingStarCounts (List.length repos));
         HttpPost (enrichment_request repos);
         ConsoleLog (SuccessfullyEnriched n)]).
Proof.
  destruct repos as [|repo repos]; [left; reflexivity|right].
  destruct (enrichment_failure_or_success
              (graphql github (enrichment_request (repo :: repos))))
    as [Hfail|[nodes Hok]].
  - destruct (@enrichWithStarCount_failure_run github (repo :: repos)
                ltac:(discriminate) Hfail) as [line Hrun].
    left. exists line. now rewrite Hrun.
  - right. exists (List.length nodes).
    now rewrite (@enrichWithStarCount_success github (repo :: repos) nodes
                   ltac:(discriminate) Hok).
Qed.

(** A run of [main] whose discovery stage returns. *)
Lemma main_completes github searchTerm searchType heap repos reposWithStars :
  result (fetchRepositories github searchTerm searchType) = Normal repos ->
  result (enrichWithStarCount github repos) = Normal reposWithStars ->
  main github searchTerm searchType heap =
  (Normal (heap ++ [Array_sort by_stars_desc (filter_by_stars reposWithStars)]),
   effects (fetchRepositories github searchTerm searchType)
   ++ ConsoleLog (FoundUnique (List.length repos))
   :: effects (enrichWithStarCount github repos)
   ++ ConsoleLog FinalResultsBanner
   :: ConsoleLog (RepositoriesAboveThreshold
                    (List.length (filter_by_stars reposWithStars)))
   :: print_from 0
        (Array_sort by_stars_desc (filter_by_stars reposWithStars))).
Proof.
  intros Hf He. unfold main.
  destruct (fetchRepositories github searchTerm searchType) as [[r|e] t1].
  2: discriminate Hf.
  simpl in Hf. inversion Hf; subst r; clear Hf.
  unfold alloc, printResults. simpl.
  destruct (enrichWithStarCount github repos) as [[rws|e] t2].
  2: discriminate He.
  simpl in He. inversion He; subst rws; clear He.
  simpl. rewrite !read_alloc, write_alloc, read_alloc.
  rewrite <- ?app_assoc. reflexivity.
Qed.

(** A run of [main] whose discovery stage throws. *)
Lemma main_discovery_throws github searchTerm searchType heap e :
  result (fetchRepositories github searchTerm searchType) = Throw e ->
  main github searchTerm searchType heap =
  (Normal heap,
   effects (fetchRepositories github searchTerm searchType)
   ++ [ConsoleError
         match e with
         | ErrorInstance msg => FatalError msg
         | OtherValue shown => UnknownError shown
         end]).
Proof.
  intros Hf. unfold main.
  destruct (fetchRepositories github searchTerm searchType) as [[r|e'] t1].
  1: discriminate Hf.
  simpl in Hf. inversion Hf; subst e'. destruct e; reflexivity.
Qed.

Lemma enrichWithStarCount_returns github repos :
  exists out, result (enrichWithStarCount github repos) = Normal out.
Proof.
  destruct (enrichWithStarCount_shape github repos) as [H|[starMap H]]; eauto.
Qed.

Lemma filter_by_stars_in reposWithStars repo :
  In repo (filter_by_stars reposWithStars) <->
  In repo reposWithStars /\ stargazers_count repo >= 100.
Proof.
  unfold filter_by_stars, star_threshold.
  rewrite filter_In, Z.geb_le. intuition lia.
Qed.

Lemma printed_ranks_app t1 t2 :
  printed_ranks (t1 ++ t2) = printed_ranks t1 ++ printed_ranks t2.
Proof. apply flat_map_app. Qed.

Lemma page_requests_app t1 t2 :
  page_requests (t1 ++ t2) = page_requests t1 ++ page_requests t2.
Proof. apply flat_map_app. Qed.

Lemma graphql_requests_app t1 t2 :
  graphql_requests (t1 ++ t2) = graphql_requests t1 ++ graphql_requests t2.
Proof. apply flat_map_app. Qed.

Lemma enrichWithStarCount_no_report github repos :
  printed_ranks (effects (enrichWithStarCount github repos)) = []
  /\ page_requests (effects (enrichWithStarCount github repos)) = [].
Proof.
  destruct (enrichWithStarCount_effects github repos)
    as [H|[[line H]|[n H]]]; rewrite H; split; reflexivity.
Qed.

(** X12. When the discovery stage returns, [main] leaves the arrays of the
    store as they were and adds one array: the enriched records that have at
    least 100 stars, in descending order of stars.  The report is printed
    from this array after everything else, with ranks 1, 2, ..., and the
    count announced before it is the number of records in it. *)
Theorem main_reports_popular_sorted github searchTerm searchType heap repos :
  result (fetchRepositories github searchTerm searchType) = Normal repos ->
  exists reposWithStars shown,
    result (enrichWithStarCount github repos) = Normal reposWithStars
    /\ shown = Array_sort by_stars_desc (filter_by_stars reposWithStars)
    /\ result (main github searchTerm searchType heap) = Normal (heap ++ [shown])
    /\ (exists before,
          effects (main github searchTerm searchType heap)
          = before
            ++ ConsoleLog (RepositoriesAboveThreshold (List.length shown))
            :: print_from 0 shown
          /\ printed_ranks before = [])
    /\ printed_ranks (effects (main github searchTerm searchType heap))
       = seq 1 (List.length shown)
    /\ (forall repo,
          In repo shown <->
          In repo reposWithStars /\ stargazers_count repo >= 100)
    /\ StronglySorted stars_ge shown.
Proof.
  intros Hf.
  destruct (enrichWithStarCount_returns github repos) as [rws He].
  exists rws, (Array_sort by_stars_desc (filter_by_stars rws)).
  pose proof (main_completes github searchTerm searchType heap Hf He) as Hmain.
  pose proof (enrichWithStarCount_no_report github repos) as [Hnr _].
  assert (Hnf : printed_ranks
                  (effects (fetchRepositories github searchTerm searchType)) = []).
  { rewrite fetchRepositories_effects. apply fetch_pages_no_report. }
  split; [exact He|]. split; [reflexivity|].
  split; [now rewrite Hmain|]. split; [|split; [|split]].
  - exists (effects (fetchRepositories github searchTerm searchType)
            ++ ConsoleLog (FoundUnique (List.length repos))
            :: effects (enrichWithStarCount github repos)
            ++ [ConsoleLog FinalResultsBanner]).
    split.
    + rewrite Hmain. unfold effects at 1. simpl snd.
      rewrite Array_sort_length.
      rewrite <- app_assoc. simpl. rewrite <- app_assoc. reflexivity.
    + rewrite printed_ranks_app, Hnf. simpl.
      rewrite printed_ranks_app, Hnr. reflexivity.
  - rewrite Hmain. unfold effects at 1. simpl snd.
    rewrite printed_ranks_app, Hnf. simpl.
    rewrite printed_ranks_app, Hnr. simpl.
    apply print_from_ranks.
  - intros repo. split.
    + intros Hin.
      apply (Permutation_in repo
               (Permutation_sym
                  (Array_sort_perm stargazers_count (filter_by_stars rws))))
        in Hin.
      now apply (proj1 (filter_by_stars_in rws repo)).
    + intros Hin.
      apply (Permutation_in repo
               (Array_sort_perm stargazers_count (filter_by_stars rws))).
      now apply (proj2 (filter_by_stars_in rws repo)).
  - apply (Array_sort_sorted stargazers_count).
Qed.

Lemma main_reports_popular_sorted_witness :
  exists reposWithStars shown,
    result (enrichWithStarCount one_page_then_refused [repo_c; repo_a; repo_d])
      = Normal reposWithStars
    /\ shown = Array_sort by_stars_desc (filter_by_stars reposWithStars)
    /\ result (main one_page_then_refused "Dockerfile" filename [])
       = Normal ([] ++ [shown])
    /\ (exists before,
          effects (main one_page_then_refused "Dockerfile" filename [])
          = before
            ++ ConsoleLog (RepositoriesAboveThreshold (List.length shown))
            :: print_from 0 shown
          /\ printed_ranks before = [])
    /\ printed_ranks (effects (main one_page_then_refused "Dockerfile" filename []))
       = seq 1 (List.length shown)
    /\ (forall repo,
          In repo shown <->
          In repo reposWithStars /\ stargazers_count repo >= 100)
    /\ StronglySorted stars_ge shown.
Proof.
  apply (@main_reports_popular_sorted one_page_then_refused "Dockerfile"
           filename [] [repo_c; repo_a; repo_d]).
  reflexivity.
Defined.

(** X13. A failed enrichment does not cost the report: when the discovery
    stage returns records and the enrichment request fails, [main] still
    completes and reports the discovered records that have at least 100
    stars by the counts of the discovery stage, sorted. *)
Theorem main_reports_despite_enrichment_failure
    github searchTerm searchType heap repos :
  result (fetchRepositories github searchTerm searchType) = Normal repos ->
  repos <> [] ->
  enrichment_failure (graphql github (enrichment_request repos)) ->
  let shown := Array_sort by_stars_desc (filter_by_stars repos) in
  result (main github searchTerm searchType heap) = Normal (heap ++ [shown])
  /\ printed_ranks (effects (main github searchTerm searchType heap))
     = seq 1 (List.length shown)
  /\ exists before,
       effects (main github searchTerm searchType heap)
       = before ++ print_from 0 shown.
Proof.
  intros Hf Hne Hfail shown.
  pose proof (enrichWithStarCount_failure github Hne Hfail) as He.
  pose proof (main_completes github searchTerm searchType heap Hf He) as Hmain.
  fold shown in Hmain.
  pose proof (enrichWithStarCount_no_report github repos) as [Hnr _].
  assert (Hnf : printed_ranks
                  (effects (fetchRepositories github searchTerm searchType)) = []).
  { rewrite fetchRepositories_effects. apply fetch_pages_no_report. }
  rewrite Hmain. split; [reflexivity|]. split.
  - unfold effects at 1. simpl snd.
    rewrite printed_ranks_app, Hnf. simpl.
    rewrite printed_ranks_app, Hnr. simpl.
    apply print_from_ranks.
  - eexists. unfold effects at 1. simpl snd.
    change (?a :: ?b :: print_from 0 shown)
      with ([a; b] ++ print_from 0 shown).
    rewrite app_comm_cons, !app_assoc. reflexivity.
Qed.

Lemma main_reports_despite_enrichment_failure_witness :
  let shown :=
    Array_sort by_stars_desc (filter_by_stars [repo_c; repo_a; repo_d]) in
  result (main one_page_then_refused "Dockerfile" filename [])
    = Normal ([] ++ [shown])
  /\ printed_ranks (effects (main one_page_then_refused "Dockerfile" filename []))
     = seq 1 (List.length shown)
  /\ exists before,
       effects (main one_page_then_refused "Dockerfile" filename [])
       = before ++ print_from 0 shown.
Proof.
  apply (@main_reports_despite_enrichment_failure one_page_then_refused
           "Dockerfile" filename [] [repo_c; repo_a; repo_d]).
  - reflexivity.
  - discriminate.
  - apply transport_failure.
Defined.

(** The report of that run: [d/d] with 300 stars, then [c/c] with 150. *)
Example main_report_of_one_page :
  result (main one_page_then_refused "Dockerfile" filename [])
  = Normal [[repo_d; repo_c]].
Proof. reflexivity. Qed.

(** X14. When the discovery stage throws, [main] ends without a report: it
    adds one line to the error console after the effects of the discovery
    stage, sends no enrichment request, prints no report line and leaves the
    store as it was. *)
Theorem main_discovery_error_no_report github searchTerm searchType heap e :
  result (fetchRepositories github searchTerm searchType) = Throw e ->
  result (main github searchTerm searchType heap) = Normal heap
  /\ (exists line,
        effects (main github searchTerm searchType heap)
        = effects (fetchRepositories github searchTerm searchType)
          ++ [ConsoleError line])
  /\ graphql_requests (effects (main github searchTerm searchType heap)) = []
  /\ printed_ranks (effects (main github searchTerm searchType heap)) = [].
Proof.
  intros Hf.
  rewrite (main_discovery_throws github searchTerm searchType heap Hf).
  split; [reflexivity|]. split; [eexists; reflexivity|].
  unfold effects at 1 3. simpl snd.
  rewrite graphql_requests_app, printed_ranks_app.
  rewrite !fetchRepositories_effects.
  rewrite fetch_pages_no_graphql, fetch_pages_no_report.
  split; reflexivity.
Qed.

Lemma main_discovery_error_no_report_witness :
  result (main garbled_second_page "Dockerfile" filename []) = Normal []
  /\ (exists line,
        effects (main garbled_second_page "Dockerfile" filename [])
        = effects (fetchRepositories garbled_second_page "Dockerfile" filename)
          ++ [ConsoleError line])
  /\ graphql_requests
       (effects (main garbled_second_page "Dockerfile" filename [])) = []
  /\ printed_ranks
       (effects (main garbled_second_page "Dockerfile" filename [])) = [].
Proof.
  apply (@main_discovery_error_no_report garbled_second_page "Dockerfile"
           filename [] (ErrorInstance "Unexpected token < in JSON")).
  reflexivity.
Defined.

(* ===================================================================== *)
(** * main: token and flags *)
(* ===================================================================== *)

Lemma pipeline_events_map t : pipeline_events (map Pipeline t) = t.
Proof. induction t as [|ev t IH]; simpl; [reflexivity|now rewrite IH]. Qed.

Lemma fetchRepositories_requests_first github searchTerm type :
  exists rest,
    page_requests (effects (fetchRepositories github searchTerm type))
    = page_request searchTerm type 1 :: rest.
Proof.
  rewrite fetchRepositories_effects, page_requests_step by lia.
  eexists. reflexivity.
Qed.

(** The search endpoint is called by the discovery stage only. *)
Lemma main_page_requests github searchTerm searchType heap :
  page_requests (effects (main github searchTerm searchType heap))
  = page_requests (effects (fetchRepositories github searchTerm searchType)).
Proof.
  destruct (result (fetchRepositories github searchTerm searchType))
    as [repos|e] eqn:Hf.
  - destruct (enrichWithStarCount_returns github repos) as [rws He].
    rewrite (main_completes github searchTerm searchType heap Hf He).
    unfold effects at 1. simpl snd.
    rewrite page_requests_app. simpl. rewrite page_requests_app.
    rewrite (proj2 (enrichWithStarCount_no_report github repos)). simpl.
    rewrite (proj1 (print_from_no_requests 0 _)).
    now rewrite app_nil_r.
  - rewrite (main_discovery_throws github searchTerm searchType heap Hf).
    unfold effects at 1. simpl snd.
    rewrite page_requests_app. simpl. apply app_nil_r.
Qed.

(** X15. [main] reaches the network exactly when the token is set and not
    empty, [--help] is not given and at least one of [--filename] and
    [--search] has a non-empty value; and it ends the process with code 1
    exactly when the token is missing or empty. *)
Theorem main_process_requests_iff github TOKEN flags heap :
  (page_requests
     (pipeline_events (snd (main_process github TOKEN flags heap))) <> []
   <->
   truthy TOKEN = true
   /\ flag_help flags = false
   /\ (truthy (flag_filename flags) = true
       \/ truthy (flag_search flags) = true))
  /\ (fst (main_process github TOKEN flags heap) = Exit 1
      <-> truthy TOKEN = false).
Proof.
  unfold main_process.
  destruct (truthy TOKEN); simpl.
  2: { split; split; try reflexivity; try tauto.
       intros (H & _). discriminate H. }
  destruct (flag_help flags); simpl.
  { split; split; try discriminate; try tauto.
    intros (_ & H & _). discriminate H. }
  destruct (truthy (flag_filename flags)) eqn:Ef;
    destruct (truthy (flag_search flags)) eqn:Es; simpl;
    try (split; split; try discriminate; try tauto;
         intros (_ & _ & [H|H]); discriminate H).
  all: match goal with
       | |- context [main ?g ?term ?ty ?h] =>
           pose proof (main_page_requests g term ty h) as Hreq;
           destruct (fetchRepositories_requests_first g term ty)
             as [rest Hfirst];
           destruct (main g term ty h) as [c t]
       end;
    simpl; rewrite pipeline_events_map;
    unfold effects at 1 in Hreq; simpl in Hreq; rewrite Hreq, Hfirst;
    split; split; try discriminate; auto.
Qed.

(** X16. [--filename] takes precedence over [--search]: with a token and
    without [--help], a non-empty [--filename] makes the page requests those
    of a filename search for it, whatever [--search] holds; a code search
    for the value of [--search] is made only when [--filename] is absent or
    empty. *)
Theorem main_process_filename_first github TOKEN flags heap :
  truthy TOKEN = true ->
  flag_help flags = false ->
  (forall f,
     flag_filename flags = Some f -> f <> "" ->
     page_requests
       (pipeline_events (snd (main_process github TOKEN flags heap)))
     = page_requests (effects (fetchRepositories github f filename)))
  /\ (forall s,
        truthy (flag_filename flags) = false ->
        flag_search flags = Some s -> s <> "" ->
        page_requests
          (pipeline_events (snd (main_process github TOKEN flags heap)))
        = page_requests (effects (fetchRepositories github s content))).
Proof.
  intros Htoken Hhelp. unfold main_process. rewrite Htoken, Hhelp. simpl.
  split.
  - intros f Hf Hne.
    assert (Ht : truthy (flag_filename flags) = true).
    { rewrite Hf. simpl. destruct (String.eqb_spec f ""); [contradiction|].
      reflexivity. }
    unfold js_or. rewrite Ht, Hf. simpl.
    pose proof (main_page_requests github f filename heap) as Hreq.
    destruct (main github f filename heap) as [c t].
    simpl. rewrite pipeline_events_map. exact Hreq.
  - intros s Hf Hs Hne.
    assert (Ht : truthy (flag_search flags) = true).
    { rewrite Hs. simpl. destruct (String.eqb_spec s ""); [contradiction|].
      reflexivity. }
    unfold js_or. rewrite Hf, Ht, Hs. simpl.
    pose proof (main_page_requests github s content heap) as Hreq.
    destruct (main github s content heap) as [c t].
    simpl. rewrite pipeline_events_map. exact Hreq.
Qed.

Lemma main_process_filename_first_witness :
  page_requests
    (pipeline_events
       (snd (main_process three_pages (Some "ghp_token")
               {| flag_help := false;
                  flag_filename := Some "Dockerfile";
                  flag_search := Some "FROM alpine" |} [])))
  = page_requests (effects (fetchRepositories three_pages "Dockerfile" filename)).
Proof.
  refine (proj1 (@main_process_filename_first three_pages (Some "ghp_token")
                   {| flag_help := false;
                      flag_filename := Some "Dockerfile";
                      flag_search := Some "FROM alpine" |} [] _ _)
                "Dockerfile" _ _).
  - reflexivity.
  - reflexivity.
  - reflexivity.
  - discriminate.
Defined.
